(** * FEM.edu: nodes, the plane triangle and the corotational wrapper

    A shallow embedding of [domain/Node.py],
    [femedu/elements/LinearTriangle.py] and
    [femedu/elements/wrapper/Corotational.py].

    Python objects are records, every method takes the object (and the
    objects it reaches) and returns the mutated object; a method that can
    raise returns a [result].  numpy arrays of floats are lists over an
    abstract scalar type: no theorem below relies on a law of the
    arithmetic unless it says so.

    Left out: the attributes [start] and [transform] of a node, which
    no method here reads; drawing ([element_type], [createFaces]); and
    the classes [Element] and the materials, which are not among these
    sources and enter as parameters. *)

From Stdlib Require Import ZArith QArith Qcanon Ring.
From stdpp Require Import ssreflect gmap strings list fin_maps pretty.

(** ** Python exceptions and fallible computations *)

Inductive exn : Type :=
  | KeyError (msg : string)
  | TypeError
  | ValueError
  | IndexError
  | AttributeError (attr : string)
  | LinAlgError.

Inductive result (A : Type) : Type :=
  | Ok (a : A)
  | Raise (e : exn).
Arguments Ok {A} a.
Arguments Raise {A} e.

#[global] Instance result_ret : MRet result := λ A a, Ok a.
#[global] Instance result_bind : MBind result := λ A B f r,
  match r with
  | Ok a => f a
  | Raise e => Raise e
  end.

#[global] Instance result_fmap : FMap result := λ A B f r,
  match r with
  | Ok a => Ok (f a)
  | Raise e => Raise e
  end.

(** [KeyError] and [IndexError] derive from [LookupError]. *)
Definition is_LookupError (e : exn) : bool :=
  match e with
  | KeyError _ | IndexError => true
  | _ => false
  end.

(** [d[k]] on a dict: a missing key raises [KeyError]. *)
Definition dict_getitem {V} (d : gmap string V) (k : string) : result V :=
  match d !! k with
  | Some v => Ok v
  | None => Raise (KeyError k)
  end.

(** Identity of a Python object (an element instance). *)
Definition ObjId := nat.

(** ** Scalars: Python floats and the numpy calls made on them *)

Class Scalar (F : Type) : Type := {
  f0 : F;                 (* 0.0 *)
  f1 : F;                 (* 1.0 *)
  f2 : F;                 (* 2.0 *)
  fhalf : F;              (* 0.5 *)
  fadd : F → F → F;
  fsub : F → F → F;
  fmul : F → F → F;
  fdiv : F → F → F;
  fopp : F → F;
  np_sqrt : F → F;
}.

(** ** The numpy operations the sources use

    A 1-D array is a [list F], a 2-D array the list of its rows.  A shape
    mismatch raises [ValueError], an index out of range [IndexError]. *)

Module Np.
Section Np.
Context {F : Type} `{Scalar F}.

Definition vec : Type := list F.
Definition mat : Type := list (list F).

(** An array of one or of two axes. *)
Inductive ndarray : Type :=
  | A1 (v : vec)
  | A2 (m : mat).

(** [np.zeros(k)], [np.zeros_like(v)], [np.size(v)] *)
Definition zeros (k : nat) : vec := replicate k f0.
Definition zeros_like (v : vec) : vec := zeros (length v).
Definition size (v : vec) : nat := length v.

(** Elementwise binary operation on one axis, with numpy's broadcasting:
    equal lengths, or one side of length 1. *)
Definition bcast {A} (f : A → A → result A) (u v : list A)
    : result (list A) :=
  if decide (length u = length v) then mapM (λ p, f p.1 p.2) (zip u v)
  else match u, v with
       | [a], _ => mapM (f a) v
       | _, [b] => mapM (λ x, f x b) u
       | _, _ => Raise ValueError
       end.

Definition pure2 (f : F → F → F) (x y : F) : result F := Ok (f x y).

Definition vadd : vec → vec → result vec := bcast (pure2 fadd).
Definition vsub : vec → vec → result vec := bcast (pure2 fsub).
Definition madd : mat → mat → result mat := bcast vadd.
Definition msub : mat → mat → result mat := bcast vsub.

(** In-place [u += v]: [v] is broadcast to the shape of [u], which
    cannot change. *)
Definition iadd (u v : vec) : result vec :=
  if decide (length v = length u) then Ok (zip_with fadd u v)
  else match v with
       | [b] => Ok (map (λ x, fadd x b) u)
       | _ => Raise ValueError
       end.

(** [a * v], [v * a], [-v] and the same on matrices. *)
Definition scale_l (a : F) (v : vec) : vec := map (fmul a) v.
Definition scale_r (v : vec) (a : F) : vec := map (λ x, fmul x a) v.
Definition neg (v : vec) : vec := map fopp v.
Definition mscale_l (a : F) (m : mat) : mat := map (scale_l a) m.
Definition mscale_r (m : mat) (a : F) : mat := map (λ r, scale_r r a) m.

(** Sum of the terms, left to right. *)
Definition sum_list (l : list F) : F :=
  match l with
  | [] => f0
  | x :: r => foldl fadd x r
  end.
Definition dot (u v : vec) : F := sum_list (zip_with fmul u v).

(** [np.vstack((u, v))] of two 1-D arrays. *)
Definition vstack2 (u v : vec) : result mat :=
  if decide (length u = length v) then Ok [u; v] else Raise ValueError.

(** [m.T] *)
Definition ncols (m : mat) : nat :=
  match m with
  | [] => 0
  | r :: _ => length r
  end.
Definition transpose (m : mat) : mat :=
  foldr (zip_with cons) (replicate (ncols m) []) m.

(** The products of matrices and vectors of matching shapes: row by
    column. *)
Definition mm (a b : mat) : mat := map (λ r, map (dot r) (transpose b)) a.
Definition mv (a : mat) (v : vec) : vec := map (λ r, dot r v) a.
Definition vm (v : vec) (b : mat) : vec := map (dot v) (transpose b).

(** Entrywise sum and difference of arrays of one shape. *)
Definition vplus (u v : vec) : vec := zip_with fadd u v.
Definition vminus (u v : vec) : vec := zip_with fsub u v.
Definition mplus (a b : mat) : mat := zip_with vplus a b.
Definition mminus (a b : mat) : mat := zip_with vminus a b.

(** The entry [m[i, j]], zero outside the matrix. *)
Definition entry (m : mat) (i j : nat) : F :=
  default f0 (m !! i ≫= (.!! j)).
Definition coord (v : vec) (i : nat) : F := default f0 (v !! i).

(** [a @ b] for 2-D [a] and [b], for 2-D [a] and 1-D [v], for 1-D [v]
    and 2-D [b], and for two 1-D arrays. *)
Definition matmul (a b : mat) : result mat :=
  if decide (Forall (λ r, length r = length b) a)
  then Ok (mm a b)
  else Raise ValueError.
Definition matvec (a : mat) (v : vec) : result vec :=
  if decide (Forall (λ r, length r = length v) a)
  then Ok (mv a v)
  else Raise ValueError.
Definition vecmat (v : vec) (b : mat) : result vec :=
  if decide (length v = length b)
  then Ok (vm v b)
  else Raise ValueError.
Definition vdot (u v : vec) : result F :=
  if decide (length u = length v) then Ok (dot u v) else Raise ValueError.

(** [np.array(rows)] of a list of 1-D arrays. *)
Definition array2 (rows : list vec) : result mat :=
  if decide (Forall (λ r, length r = ncols rows) rows) then Ok rows
  else Raise ValueError.

(** [np.outer(u, v)], [np.eye(k)] *)
Definition outer (u v : vec) : mat := map (λ a, map (fmul a) v) u.
Definition eye (k : nat) : mat :=
  map (λ i, map (λ j, if decide (i = j) then f1 else f0) (seq 0 k)) (seq 0 k).

(** [np.tensordot(a, b, ((0,), (0,)))]: the first axes are contracted. *)
Definition tensordot00 (a b : mat) : result mat :=
  if decide (length a = length b)
  then Ok (map (λ ca, map (dot ca) (transpose b)) (transpose a))
  else Raise ValueError.

(** [v[i]], [m[i]] and [m[i, j]] for non-negative literal indices. *)
Definition item {A} (l : list A) (i : nat) : result A :=
  match l !! i with
  | Some x => Ok x
  | None => Raise IndexError
  end.
Definition item2 (m : mat) (i j : nat) : result F :=
  r ← item m i; item r j.

(** [v[idx]] for an integer index array. *)
Definition take_idx (v : vec) (idx : list nat) : result vec :=
  mapM (item v) idx.

End Np.
End Np.
Arguments Np.vec F : clear implicits.
Arguments Np.mat F : clear implicits.
Arguments Np.ndarray F : clear implicits.

(** [np.linalg.inv] and [np.linalg.det] (LAPACK): taken as given. *)
Class LinAlg (F : Type) : Type := {
  linalg_inv : list (list F) → result (list (list F));
  linalg_det : list (list F) → result F;
}.

(** ** domain/Node.py *)

Module Node.
Section Node.
Context {F : Type} `{Scalar F}.

(** What [self.disp] can hold: [None] (as constructed), an ndarray, or
    whatever [setDisp] was handed (a float, a list). *)
Inductive dispval : Type :=
  | DNone
  | DArray (v : list F)
  | DFloat (x : F)
  | DList (l : list F).

(** A DOF code, or a list of codes (the argument of [dof2idx]). *)
Inductive dofarg : Type :=
  | DofStr (dof : string)
  | DofList (dof_list : list string).

Record Node : Type := mkNode {
  pos : list F;
  index : Z;
  disp : dispval;
  dofs : gmap string nat;
  ndofs : nat;
  elements : list ObjId;
  fixity : list string;
  loads : list (string * F);       (* dict, in insertion order *)
  _hasLoad : bool;
}.

Definition set_disp (v : dispval) (n : Node) : Node :=
  mkNode (pos n) (index n) v (dofs n) (ndofs n) (elements n) (fixity n)
         (loads n) (_hasLoad n).
Definition set_dofs (d : gmap string nat) (k : nat) (n : Node) : Node :=
  mkNode (pos n) (index n) (disp n) d k (elements n) (fixity n)
         (loads n) (_hasLoad n).
Definition set_elements (l : list ObjId) (n : Node) : Node :=
  mkNode (pos n) (index n) (disp n) (dofs n) (ndofs n) l (fixity n)
         (loads n) (_hasLoad n).
Definition set_fixity (l : list string) (n : Node) : Node :=
  mkNode (pos n) (index n) (disp n) (dofs n) (ndofs n) (elements n) l
         (loads n) (_hasLoad n).
Definition set_loads (l : list (string * F)) (b : bool) (n : Node) : Node :=
  mkNode (pos n) (index n) (disp n) (dofs n) (ndofs n) (elements n)
         (fixity n) l b.

(** [Node.__init__(x0, y0, z0=None)] *)
Definition __init__ (x0 y0 : F) (z0 : option F) : Node :=
  mkNode (match z0 with Some z => [x0; y0; z] | None => [x0; y0] end)
         (-1) DNone ∅ 0 [] [] [] false.

(** ['Dof {} does not exist in node {}'.format(dof, self.index)] *)
Definition missing_dof_msg (dof : string) (idx : Z) : string :=
  "Dof " +:+ dof +:+ " does not exist in node " +:+ pretty idx.

Definition dof2idx_one (n : Node) (dof : string) : result nat :=
  match dofs n !! dof with
  | Some i => Ok i
  | None => Raise (KeyError (missing_dof_msg dof (index n)))
  end.

Fixpoint dof2idx_loop (n : Node) (dof_list : list string) (idx : list nat)
    : result (list nat) :=
  match dof_list with
  | [] => Ok idx
  | dof :: rest =>
      match dofs n !! dof with
      | Some i => dof2idx_loop n rest (idx ++ [i])
      | None => Raise (KeyError (missing_dof_msg dof (index n)))
      end
  end.

(** [Node.dof2idx(dof_list)] *)
Definition dof2idx (n : Node) (arg : dofarg) : result (list nat) :=
  match arg with
  | DofStr dof => i ← dof2idx_one n dof; Ok [i]
  | DofList dof_list => dof2idx_loop n dof_list []
  end.

(** One turn of the loop of [request]: the node after it, and the index
    read back by [self.dofs[dof]]. *)
Definition request_dof (n : Node) (dof : string) : Node * result nat :=
  let n1 := if decide (dofs n !! dof = None)
            then set_dofs (<[dof := ndofs n]> (dofs n)) (S (ndofs n)) n
            else n in
  (n1, dict_getitem (dofs n1) dof).

Fixpoint request_loop (dof_list : list string) (n : Node)
    (dof_idx : list nat) : Node * result (list nat) :=
  match dof_list with
  | [] => (n, Ok dof_idx)
  | dof :: rest =>
      match request_dof n dof with
      | (n1, Ok i) => request_loop rest n1 (dof_idx ++ [i])
      | (n1, Raise e) => (n1, Raise e)
      end
  end.

(** [Node.request(dof_list, caller)] *)
Definition request (dof_list : list string) (caller : ObjId) (n : Node)
    : Node * result (list nat) :=
  match request_loop dof_list n [] with
  | (n1, Ok dof_idx) =>
      let n2 := if decide (caller ∈ elements n1) then n1
                else set_elements (elements n1 ++ [caller]) n1 in
      (n2, Ok dof_idx)
  | (n1, Raise e) => (n1, Raise e)
  end.

(** [Node.fixDOF], called with any number of codes. *)
Fixpoint fixDOF (codes : list string) (n : Node) : Node :=
  match codes with
  | [] => n
  | dof :: rest =>
      fixDOF rest (if decide (dof ∈ fixity n) then n
                   else set_fixity (fixity n ++ [dof]) n)
  end.

(** [Node.__floordiv__(other)]: [node // 'ux'] fixes a code and returns
    the node. *)
Definition __floordiv__ (other : string) (n : Node) : Node :=
  fixDOF [other] n.

(** [Node.isFixed(dof)] *)
Definition isFixed (n : Node) (dof : string) : bool :=
  bool_decide (dof ∈ fixity n).

(** [Node.areFixed()]: [idx.append(i)] for [i, dof] in
    [enumerate(self.fixity)]. *)
Definition areFixed (n : Node) : list nat :=
  imap (λ i dof, i) (fixity n).

(** [Node.setDisp(U, dof_list)] *)
Definition setDisp (U : dispval) (n : Node) : Node := set_disp U n.

(** [Node._updateDisp(dU)] with [dU] an ndarray: [self.disp += dU].  On
    [None] the sum is [np.add(None, dU)], an (empty) object array when [dU]
    is empty and a [TypeError] otherwise; a float is broadcast over [dU],
    a list is extended by it. *)
Definition _updateDisp (dU : list F) (n : Node) : Node * result unit :=
  match disp n with
  | DArray v =>
      match Np.iadd v dU with
      | Ok v' => (set_disp (DArray v') n, Ok ())
      | Raise e => (n, Raise e)
      end
  | DNone =>
      match dU with
      | [] => (set_disp (DArray []) n, Ok ())
      | _ => (n, Raise TypeError)
      end
  | DFloat x => (set_disp (DArray (map (fadd x) dU)) n, Ok ())
  | DList l => (set_disp (DList (l ++ dU)) n, Ok ())
  end.

(** The test [not isinstance(self.disp, np.ndarray)] and the assignment
    [self.disp = np.zeros(self.ndofs)] that opens [getDisp] and
    [getDeformedPos]; the array is returned with the node. *)
Definition ensure_disp (n : Node) : Node * list F :=
  match disp n with
  | DArray v => (n, v)
  | _ => (set_disp (DArray (Np.zeros (ndofs n))) n, Np.zeros (ndofs n))
  end.

(** Truth value of the [dof_list] argument: [None], [''] and [[]] are
    false. *)
Definition truthy (arg : option dofarg) : bool :=
  match arg with
  | None => false
  | Some (DofStr dof) => negb (bool_decide (dof = ""))
  | Some (DofList l) => negb (bool_decide (l = []))
  end.

(** [Node.getDisp(dof_list=None)] *)
Definition getDisp (dof_list : option dofarg) (n : Node)
    : Node * result (list F) :=
  let '(n1, v) := ensure_disp n in
  match dof_list with
  | Some arg =>
      if truthy dof_list
      then (n1, idx ← dof2idx n1 arg; Np.take_idx v idx)
      else (n1, Ok v)
  | None => (n1, Ok v)
  end.

(** [Node.getPos()] *)
Definition getPos (n : Node) : list F := pos n.

(** [Node.getDeformedPos(dof_list=None, factor=1.0)] *)
Definition getDeformedPos (factor : F) (n : Node) : Node * result (list F) :=
  let '(n1, v) := ensure_disp n in
  (n1, Np.vadd (pos n1) (Np.scale_l factor v)).

(** The dict [self.loads]. *)
Fixpoint loads_get (d : list (string * F)) (dof : string) : option F :=
  match d with
  | [] => None
  | (k, x) :: rest => if decide (k = dof) then Some x else loads_get rest dof
  end.
Fixpoint loads_set (d : list (string * F)) (dof : string) (x : F)
    : list (string * F) :=
  match d with
  | [] => [(dof, x)]
  | (k, y) :: rest =>
      if decide (k = dof) then (k, x) :: rest
      else (k, y) :: loads_set rest dof x
  end.

(** [Node.addLoad(loads, dofs)] *)
Fixpoint addLoad_loop (pairs : list (F * string)) (d : list (string * F))
    : list (string * F) :=
  match pairs with
  | [] => d
  | (load, dof) :: rest =>
      addLoad_loop rest
        (match loads_get d dof with
         | Some x => loads_set d dof (fadd x load)
         | None => loads_set d dof load
         end)
  end.
Definition addLoad (lds : list F) (codes : list string) (n : Node) : Node :=
  set_loads (addLoad_loop (zip lds codes) (loads n)) true n.

(** [Node.setLoad(loads, dofs)] *)
Fixpoint setLoad_loop (pairs : list (F * string)) (d : list (string * F))
    : list (string * F) :=
  match pairs with
  | [] => d
  | (load, dof) :: rest => setLoad_loop rest (loads_set d dof load)
  end.
Definition setLoad (lds : list F) (codes : list string) (n : Node) : Node :=
  set_loads (setLoad_loop (zip lds codes) (loads n)) true n.

(** [Node.resetLoad()], [Node.hasLoad()] *)
Definition resetLoad (n : Node) : Node := set_loads [] false n.
Definition hasLoad (n : Node) : bool := _hasLoad n.

(** [force[i] = x] on an ndarray. *)
Definition setitem (force : list F) (i : nat) (x : F) : result (list F) :=
  if decide (i < length force) then Ok (<[i := x]> force)
  else Raise IndexError.

(** [Node.getLoad()]: the loop runs over the keys of [self.loads]. *)
Fixpoint getLoad_loop (n : Node) (keys : list string) (force : list F)
    : result (list F) :=
  match keys with
  | [] => Ok force
  | dof :: rest =>
      match dofs n !! dof with
      | Some i =>
          match loads_get (loads n) dof with
          | Some x => force' ← setitem force i x; getLoad_loop n rest force'
          | None => Raise (KeyError dof)
          end
      | None => getLoad_loop n rest force
      end
  end.
Definition getLoad (n : Node) : result (list F) :=
  getLoad_loop n (map fst (loads n)) (Np.zeros (ndofs n)).

(** [Node.resetDisp()], [Node.resetAll()] *)
Definition resetDisp (n : Node) : Node :=
  set_disp (DArray (Np.zeros (base.size (dofs n)))) n.
Definition resetAll (n : Node) : Node := resetLoad (resetDisp n).

(** The public operations, as calls made on one node. *)
Inductive call : Type :=
  | Request (dof_list : list string) (caller : ObjId)
  | FixDOF (codes : list string)
  | SetDisp (U : dispval)
  | UpdateDisp (dU : list F)
  | GetDisp (dof_list : option dofarg)
  | GetDeformedPos (factor : F)
  | AddLoad (lds : list F) (codes : list string)
  | SetLoad (lds : list F) (codes : list string)
  | ResetLoad
  | ResetDisp
  | ResetAll.

(** The node a call leaves behind, whether it returned or raised. *)
Definition exec (c : call) (n : Node) : Node :=
  match c with
  | Request dof_list caller => (request dof_list caller n).1
  | FixDOF codes => fixDOF codes n
  | SetDisp U => setDisp U n
  | UpdateDisp dU => (_updateDisp dU n).1
  | GetDisp dof_list => (getDisp dof_list n).1
  | GetDeformedPos factor => (getDeformedPos factor n).1
  | AddLoad lds codes => addLoad lds codes n
  | SetLoad lds codes => setLoad lds codes n
  | ResetLoad => resetLoad n
  | ResetDisp => resetDisp n
  | ResetAll => resetAll n
  end.

Definition run (cs : list call) (n : Node) : Node :=
  foldl (λ m c, exec c m) n cs.

(** The nodes a program can hold: constructed, then used through the
    methods. *)
Definition reachable (n : Node) : Prop :=
  ∃ x0 y0 z0 cs, n = run cs (__init__ x0 y0 z0).

(** The DOF registry is consistent: the counter is the number of codes,
    every index is below it and no two codes share one. *)
Definition registry_ok (n : Node) : Prop :=
  ndofs n = base.size (dofs n) ∧
  (∀ d i, dofs n !! d = Some i → i < ndofs n) ∧
  (∀ d1 d2 i, dofs n !! d1 = Some i → dofs n !! d2 = Some i → d1 = d2).

(** Everything but the registry and the list of dependents is the same. *)
Definition same_state (n n' : Node) : Prop :=
  pos n' = pos n ∧ index n' = index n ∧ disp n' = disp n ∧
  fixity n' = fixity n ∧ loads n' = loads n ∧ _hasLoad n' = _hasLoad n.

(** The codes of [dof_list] that the node does not know yet. *)
Definition unknown_codes (n : Node) (dof_list : list string) : gset string :=
  list_to_set dof_list ∖ dom (dofs n).

(** The length of the displacement array, when there is one. *)
Definition disp_len (n : Node) : option nat :=
  match disp n with
  | DArray v => Some (length v)
  | _ => None
  end.

(** The displacement is [None], or an array with one entry per DOF. *)
Definition disp_ok (n : Node) : Prop :=
  match disp n with
  | DNone => True
  | DArray v => length v = ndofs n
  | _ => False
  end.

(** The codes an argument of [dof2idx] names. *)
Definition codes_of (arg : dofarg) : list string :=
  match arg with
  | DofStr dof => [dof]
  | DofList dof_list => dof_list
  end.

(** The code registered at a local index, and the load map read in the
    local DOF ordering: entry [i] is the load of the code at index [i],
    and zero when that code carries no load. *)
Definition code_at (n : Node) (i : nat) : option string :=
  match list_find (λ p, p.2 = i) (map_to_list (dofs n)) with
  | Some (_, (dof, _)) => Some dof
  | None => None
  end.
Definition projected_loads (n : Node) : list F :=
  map (λ i, default f0 (code_at n i ≫= loads_get (loads n)))
      (seq 0 (ndofs n)).

(** A call sequence keeps the registry still once the array exists: from
    then on no [request] names an unknown code; and [_updateDisp] is only
    applied to an existing array. *)
Fixpoint settled (cs : list call) (n : Node) : bool :=
  match cs with
  | [] => true
  | c :: rest =>
      match c with
      | Request dof_list _ =>
          match disp n with
          | DArray _ => bool_decide (unknown_codes n dof_list = ∅)
          | _ => true
          end
      | UpdateDisp _ =>
          match disp n with
          | DNone => false
          | _ => true
          end
      | SetDisp _ => false
      | _ => true
      end && settled rest (exec c n)
  end.

End Node.
Arguments Node F : clear implicits.
Arguments dispval F : clear implicits.
Arguments call F : clear implicits.
End Node.

(** ** Python values and calls *)

Section Python.
Context {F : Type}.

Inductive pyval : Type :=
  | PNone
  | PInt (z : Z)
  | PFloat (x : F)
  | PObj (o : ObjId).

(** A method with named parameters (after [self]), some with a default,
    and no starred parameter. *)
Record pymethod (E : Type) : Type := mkMethod {
  params : list (string * option pyval);
  body : list (string * pyval) → E → result E;
}.
Arguments params {E} _.
Arguments body {E} _ _ _.

Fixpoint env_get (env : list (string * pyval)) (x : string) : option pyval :=
  match env with
  | [] => None
  | (k, v) :: rest => if decide (k = x) then Some v else env_get rest x
  end.

(** Keyword arguments: the name must be a parameter that no positional
    argument (and no earlier keyword) has filled. *)
Fixpoint bind_keywords (names : list string) (kwargs : list (string * pyval))
    (env : list (string * pyval)) : result (list (string * pyval)) :=
  match kwargs with
  | [] => Ok env
  | (k, v) :: rest =>
      if decide (k ∈ names) then
        match env_get env k with
        | Some _ => Raise TypeError
        | None => bind_keywords names rest (env ++ [(k, v)])
        end
      else Raise TypeError
  end.

(** Parameters still unfilled take their default; one without a default
    is a missing argument. *)
Fixpoint bind_defaults (ps : list (string * option pyval))
    (env : list (string * pyval)) : result (list (string * pyval)) :=
  match ps with
  | [] => Ok env
  | (k, dflt) :: rest =>
      match env_get env k, dflt with
      | Some _, _ => bind_defaults rest env
      | None, Some v => bind_defaults rest (env ++ [(k, v)])
      | None, None => Raise TypeError
      end
  end.

(** Binding of the arguments of a call to the parameters. *)
Definition bind_args (ps : list (string * option pyval))
    (args : list pyval) (kwargs : list (string * pyval))
    : result (list (string * pyval)) :=
  if decide (length ps < length args) then Raise TypeError
  else
    env ← bind_keywords (map fst ps) kwargs (zip (map fst ps) args);
    bind_defaults ps env.

(** [obj.m(args, kwargs)] on a bound method. *)
Definition py_call {E} (m : pymethod E) (args : list pyval)
    (kwargs : list (string * pyval)) (self : E) : result E :=
  env ← bind_args (params m) args kwargs;
  body m env self.

(** [l[i] = v] on a list: a negative index counts from the end, an index
    that is not an integer is a [TypeError]. *)
Definition list_setitem {A} (l : list A) (i : pyval) (v : A)
    : result (list A) :=
  match i with
  | PInt z =>
      if decide (0 ≤ z < Z.of_nat (length l))%Z
      then Ok (<[Z.to_nat z := v]> l)
      else if decide (- Z.of_nat (length l) ≤ z < 0)%Z
      then Ok (<[Z.to_nat (Z.of_nat (length l) + z) := v]> l)
      else Raise IndexError
  | _ => Raise TypeError
  end.

End Python.
Arguments pyval F : clear implicits.
Arguments pymethod F E : clear implicits.
Arguments mkMethod {F E} params body.
Arguments params {F E} _.
Arguments body {F E} _ _ _.

(** ** Materials and the store of nodes

    The material classes are not part of these sources: an element sees
    a material through the four methods [updateState] calls. *)

Record straindict (F : Type) : Type := mkStrain {
  eps_xx : F;
  eps_yy : F;
  eps_xy : F;
}.
Arguments mkStrain {F} _ _ _.
Arguments eps_xx {F} _.
Arguments eps_yy {F} _.
Arguments eps_xy {F} _.

Record stressdict (F : Type) : Type := mkStress {
  sig_xx : F;
  sig_yy : F;
  sig_xy : F;
}.
Arguments mkStress {F} _ _ _.
Arguments sig_xx {F} _.
Arguments sig_yy {F} _.
Arguments sig_xy {F} _.

Class Material (F M : Type) : Type := {
  setStrain : straindict F → M → M;
  getStress : M → stressdict F;
  getStiffness : M → list (list F);
  getThickness : M → F;
}.

(** The nodes of the model, by identity: elements hold references. *)
Definition heap (F : Type) : Type := ObjId → Node.Node F.

Definition upd {F} (h : heap F) (i : ObjId) (n : Node.Node F) : heap F :=
  λ j, if decide (j = i) then n else h j.

(** ** femedu/elements/LinearTriangle.py *)

Module LinearTriangle.
Section LinearTriangle.
Context {F : Type} `{Scalar F} `{LinAlg F} {M : Type} `{Material F M}.

(** The dict stored by [updateState] in [self.stress]. *)
Record stress4 : Type := mkStress4 {
  P_xx : F;
  P_xy : F;
  P_yx : F;
  P_yy : F;
}.

Record LinearTriangle : Type := mkLinearTriangle {
  self_id : ObjId;
  nodes : list ObjId;
  material : M;
  distributed_load : list (pyval F);
  force : F;
  Forces : list (Np.vec F);
  Kt : list (list (Np.ndarray F));
  gcov : Np.mat F;
  GIJ : Np.mat F;
  gcont : Np.mat F;
  area : F;
  stress : option stress4;            (* absent until [updateState] *)
  Loads : option (list (Np.vec F));   (* absent until [updateState] *)
  inherited : gmap string (pyval F);  (* what the class [Element] defines *)
}.

Definition dof_codes (k : nat) : result (list string * nat) :=
  if decide (k = 3) then Ok (["ux"; "uy"; "uz"], 3)
  else if decide (k = 2) then Ok (["ux"; "uy"], 2)
  else Raise TypeError.

(** Modelled from the spec: [Element._requestDofs] is inherited from the
    class [Element], which is not in these sources; every node of the
    element is sent [request(dof_list, self)] and records the element as
    a dependent. *)
Fixpoint _requestDofs (dof_list : list string) (self : ObjId)
    (nds : list ObjId) (h : heap F) : result (heap F) :=
  match nds with
  | [] => Ok h
  | nd :: rest =>
      match Node.request dof_list self (h nd) with
      | (n1, Ok _) => _requestDofs dof_list self rest (upd h nd n1)
      | (_, Raise e) => Raise e
      end
  end.

(** [LinearTriangle.__init__(node0, node1, node2, material)]; [attrs] is
    what [Element.__init__] and the class leave on the instance besides
    [nodes] and [material]. *)
Definition __init__ (self : ObjId) (attrs : gmap string (pyval F))
    (node0 node1 node2 : ObjId) (mtl : M) (h : heap F)
    : result (LinearTriangle * heap F) :=
  '(dof_list, ndof) ← dof_codes (Np.size (Node.getPos (h node0)));
  h1 ← _requestDofs dof_list self [node0; node1; node2] h;
  let Forces0 := replicate 3 (Np.zeros ndof) in
  let Kt0 := replicate 3 (replicate 3 (Np.A1 (Np.zeros ndof))) in
  base1 ← Np.vsub (Node.getPos (h1 node1)) (Node.getPos (h1 node0));
  base2 ← Np.vsub (Node.getPos (h1 node2)) (Node.getPos (h1 node0));
  gcov0 ← Np.vstack2 base1 base2;
  GIJ0 ← Np.matmul gcov0 (Np.transpose gcov0);
  inv ← linalg_inv GIJ0;
  gcont0 ← Np.matmul inv gcov0;
  det ← linalg_det GIJ0;
  Ok (mkLinearTriangle self [node0; node1; node2] mtl
        [PFloat f0; PFloat f0; PFloat f0] f0 Forces0 Kt0
        gcov0 GIJ0 gcont0 (fdiv (np_sqrt det) f2) None None attrs, h1).

(** [LinearTriangle.setSurfaceLoad(face, w)] *)
Definition set_distributed_load (l : list (pyval F)) (e : LinearTriangle)
    : LinearTriangle :=
  mkLinearTriangle (self_id e) (nodes e) (material e) l (force e) (Forces e)
    (Kt e) (gcov e) (GIJ e) (gcont e) (area e) (stress e) (Loads e)
    (inherited e).

Definition setSurfaceLoad_body (env : list (string * pyval F))
    (e : LinearTriangle) : result LinearTriangle :=
  match env_get env "face", env_get env "w" with
  | Some face, Some w =>
      l ← list_setitem (distributed_load e) face w;
      Ok (set_distributed_load l e)
  | _, _ => Raise TypeError
  end.

Definition setSurfaceLoad_method : pymethod F LinearTriangle :=
  mkMethod [("face", None); ("w", None)] setSurfaceLoad_body.

Definition setSurfaceLoad (face w : pyval F) (e : LinearTriangle)
    : result LinearTriangle :=
  py_call setSurfaceLoad_method [face; w] [] e.

(** [node.getDeformedPos()] on a node of the store. *)
Definition deformed (nd : ObjId) (h : heap F) : result (Np.vec F * heap F) :=
  let '(n1, r) := Node.getDeformedPos f1 (h nd) in
  x ← r; Ok (x, upd h nd n1).

(** [Bi = [Gi[0]*gx, Gi[1]*gy, Gi[1]*gx + Gi[0]*gy]] *)
Definition kinematic (Gi gx gy : Np.vec F) : result (list (Np.vec F)) :=
  Gi0 ← Np.item Gi 0;
  Gi1 ← Np.item Gi 1;
  r ← Np.vadd (Np.scale_l Gi1 gx) (Np.scale_l Gi0 gy);
  Ok [Np.scale_l Gi0 gx; Np.scale_l Gi1 gy; r].

(** One block of the tangent stiffness (the body of the inner loop). *)
Definition Kblock (Ct : Np.mat F) (ar th : F) (Ti Gj : Np.vec F)
    (Bi Bj : Np.mat F) : result (Np.mat F) :=
  d ← Np.vdot Ti Gj;
  let GIJ' := fmul (fmul d ar) th in
  a ← Np.matmul (Np.transpose Bi) Ct;
  b ← Np.matmul a Bj;
  Np.madd b (Np.mscale_l GIJ' (Np.eye 2)).

Definition Krow (S Ct : Np.mat F) (ar th : F)
    (GB : list (Np.vec F * Np.mat F)) (Gi : Np.vec F) (Bi : Np.mat F)
    : result (list (Np.ndarray F)) :=
  Ti ← Np.vecmat Gi S;
  mapM (λ '(Gj, Bj), Np.A2 <$> Kblock Ct ar th Ti Gj Bi Bj) GB.

(** [LinearTriangle.updateState()], up to the assignment of
    [self.Loads]. *)
Definition updateState (e : LinearTriangle) (h : heap F)
    : result (LinearTriangle * heap F) :=
  node0 ← Np.item (nodes e) 0;
  node1 ← Np.item (nodes e) 1;
  node2 ← Np.item (nodes e) 2;
  Gs ← Np.item (gcont e) 0;
  Gt ← Np.item (gcont e) 1;
  Gu ← Np.vsub (Np.neg Gs) Gt;
  '(x1, h1) ← deformed node1 h;
  '(x0, h2) ← deformed node0 h1;
  gs ← Np.vsub x1 x0;
  '(x2, h3) ← deformed node2 h2;
  '(x0', h4) ← deformed node0 h3;
  gt ← Np.vsub x2 x0';
  gu ← Np.vsub (Np.neg gs) gt;
  gcov' ← Np.vstack2 gs gt;
  gIJ ← Np.matmul gcov' (Np.transpose gcov');
  Fm ← Np.madd (Np.outer gs Gs) (Np.outer gt Gt);
  convective ← Np.msub gIJ (GIJ e);
  let convective_strain := Np.mscale_l fhalf convective in
  FF ← Np.tensordot00 Fm Fm;
  FFI ← Np.msub FF (Np.eye (Np.size gs));
  let eps := Np.mscale_l fhalf FFI in
  e00 ← Np.item2 eps 0 0;
  e11 ← Np.item2 eps 1 1;
  e01 ← Np.item2 eps 0 1;
  e10 ← Np.item2 eps 1 0;
  let mtl := setStrain (mkStrain e00 e11 (fadd e01 e10)) (material e) in
  let sg := getStress mtl in
  let S := [[sig_xx sg; sig_xy sg]; [sig_xy sg; sig_yy sg]] in
  P ← Np.matmul Fm S;
  p00 ← Np.item2 P 0 0;
  p01 ← Np.item2 P 0 1;
  p10 ← Np.item2 P 1 0;
  p11 ← Np.item2 P 1 1;
  ts ← Np.matvec P Gs;
  tt ← Np.matvec P Gt;
  tu ← Np.matvec P Gu;
  Gs0 ← Np.item Gs 0;
  Gt0 ← Np.item Gt 0;
  gx ← Np.vadd (Np.scale_l Gs0 gs) (Np.scale_l Gt0 gt);
  Gs1 ← Np.item Gs 1;
  Gt1 ← Np.item Gt 1;
  gy ← Np.vadd (Np.scale_l Gs1 gs) (Np.scale_l Gt1 gt);
  Bu ← kinematic Gu gx gy;
  Bs ← kinematic Gs gx gy;
  Bt ← kinematic Gt gx gy;
  Bu' ← Np.array2 Bu;
  Bs' ← Np.array2 Bs;
  Bt' ← Np.array2 Bt;
  let GB := [(Gu, Bu'); (Gs, Bs'); (Gt, Bt')] in
  let th := getThickness mtl in
  let Forces' := [Np.scale_r (Np.scale_r tu (area e)) th;
                  Np.scale_r (Np.scale_r ts (area e)) th;
                  Np.scale_r (Np.scale_r tt (area e)) th] in
  let Ct := Np.mscale_r (Np.mscale_r (getStiffness mtl) (area e)) th in
  Kt' ← mapM (λ '(Gi, Bi), Krow S Ct (area e) th GB Gi Bi) GB;
  Loads' ← mapM (λ I, Np.zeros_like <$> Np.item Forces' I)
               (seq 0 (length (nodes e)));
  Ok (mkLinearTriangle (self_id e) (nodes e) mtl (distributed_load e)
        (force e) Forces' Kt' (gcov e) (GIJ e) (gcont e) (area e)
        (Some (mkStress4 p00 p01 p10 p11)) (Some Loads') (inherited e), h4).

(** The deformed position of a node, as [getDeformedPos()] returns it. *)
Definition deformed_pos (n : Node.Node F) : result (Np.vec F) :=
  (Node.getDeformedPos f1 n).2.

(** Shapes: a matrix of [r] rows and [c] columns. *)
Definition shape (r c : nat) (m : Np.mat F) : Prop :=
  length m = r ∧ Forall (λ row, length row = c) m.

(** A triangle in the plane: three nodes whose deformed positions have
    two components, 2x2 reference geometry, and a material whose tangent
    is a 3x3 matrix. *)
Definition plane (e : LinearTriangle) (h : heap F) : Prop :=
  length (nodes e) = 3 ∧
  Forall (λ nd, ∃ x, deformed_pos (h nd) = Ok x ∧ length x = 2) (nodes e) ∧
  shape 2 2 (gcont e) ∧ shape 2 2 (GIJ e) ∧
  ∀ eps, shape 3 3 (getStiffness (setStrain eps (material e))).

(** *** The formulation, in closed form

    What the update of a plane triangle computes, written with the
    products and sums of matching shapes. *)

(** The third dual base vector, [-Gs - Gt]. *)
Definition third_dual (Gs Gt : Np.vec F) : Np.vec F :=
  Np.vminus (Np.neg Gs) Gt.

(** The deformation gradient [gs (x) Gs + gt (x) Gt]. *)
Definition deformation_gradient (gs gt Gs Gt : Np.vec F) : Np.mat F :=
  Np.mplus (Np.outer gs Gs) (Np.outer gt Gt).

(** The strain [(F^T F - 1) / 2] handed to the material. *)
Definition strain_of (Fm : Np.mat F) : straindict F :=
  let eps := Np.mscale_l fhalf
               (Np.mminus (Np.mm (Np.transpose Fm) Fm) (Np.eye 2)) in
  mkStrain (Np.entry eps 0 0) (Np.entry eps 1 1)
           (fadd (Np.entry eps 0 1) (Np.entry eps 1 0)).

(** The 2nd Piola-Kirchhoff stress as a matrix, the 1st Piola-Kirchhoff
    stress [P = F S]. *)
Definition stress_matrix (sg : stressdict F) : Np.mat F :=
  [[sig_xx sg; sig_xy sg]; [sig_xy sg; sig_yy sg]].
Definition first_PK (Fm S : Np.mat F) : Np.mat F := Np.mm Fm S.

(** The force at a node: traction [P G] times area times thickness. *)
Definition nodal_force (P : Np.mat F) (G : Np.vec F) (ar th : F)
    : Np.vec F :=
  Np.scale_r (Np.scale_r (Np.mv P G) ar) th.

(** The strain-displacement matrix of a node with dual vector [G]. *)
Definition B_matrix (G gx gy : Np.vec F) : Np.mat F :=
  [Np.scale_l (Np.coord G 0) gx;
   Np.scale_l (Np.coord G 1) gy;
   Np.vplus (Np.scale_l (Np.coord G 1) gx) (Np.scale_l (Np.coord G 0) gy)].

(** A block of the tangent: [Bi^T Ct Bj + (Gi S Gj * area * t) 1]. *)
Definition stiffness_block (S Ct : Np.mat F) (ar th : F)
    (Gi : Np.vec F) (Bi : Np.mat F) (Gj : Np.vec F) (Bj : Np.mat F)
    : Np.mat F :=
  Np.mplus (Np.mm (Np.mm (Np.transpose Bi) Ct) Bj)
           (Np.mscale_l (fmul (fmul (Np.dot (Np.vm Gi S) Gj) ar) th)
                        (Np.eye 2)).

(** The element after an update with the nodes at [xa], [xb], [xc]. *)
Definition plane_update (e : LinearTriangle) (xa xb xc : Np.vec F)
    : LinearTriangle :=
  let Gs := default [] (gcont e !! 0) in
  let Gt := default [] (gcont e !! 1) in
  let Gu := third_dual Gs Gt in
  let gs := Np.vminus xb xa in
  let gt := Np.vminus xc xa in
  let Fm := deformation_gradient gs gt Gs Gt in
  let mtl := setStrain (strain_of Fm) (material e) in
  let S := stress_matrix (getStress mtl) in
  let P := first_PK Fm S in
  let gx := Np.vplus (Np.scale_l (Np.coord Gs 0) gs)
                     (Np.scale_l (Np.coord Gt 0) gt) in
  let gy := Np.vplus (Np.scale_l (Np.coord Gs 1) gs)
                     (Np.scale_l (Np.coord Gt 1) gt) in
  let th := getThickness mtl in
  let Ct := Np.mscale_r (Np.mscale_r (getStiffness mtl) (area e)) th in
  let GB := [(Gu, B_matrix Gu gx gy); (Gs, B_matrix Gs gx gy);
             (Gt, B_matrix Gt gx gy)] in
  let Forces' := [nodal_force P Gu (area e) th;
                  nodal_force P Gs (area e) th;
                  nodal_force P Gt (area e) th] in
  mkLinearTriangle (self_id e) (nodes e) mtl (distributed_load e) (force e)
    Forces'
    (map (λ '(Gi, Bi),
            map (λ '(Gj, Bj),
                   Np.A2 (stiffness_block S Ct (area e) th Gi Bi Gj Bj)) GB)
         GB)
    (gcov e) (GIJ e) (gcont e) (area e)
    (Some (mkStress4 (Np.entry P 0 0) (Np.entry P 0 1)
                     (Np.entry P 1 0) (Np.entry P 1 1)))
    (Some (map Np.zeros_like Forces')) (inherited e).

(** Two states of one element: same nodes, same reference geometry. *)
Definition same_geometry (e0 e : LinearTriangle) : Prop :=
  nodes e = nodes e0 ∧ gcov e = gcov e0 ∧ GIJ e = GIJ e0 ∧
  gcont e = gcont e0 ∧ area e = area e0.

(** [LinearTriangle.getStress()]: [return self.Stress]. *)
Definition getattr (e : LinearTriangle) (name : string) : result (pyval F) :=
  match inherited e !! name with
  | Some v => Ok v
  | None => Raise (AttributeError name)
  end.
Definition getStress (e : LinearTriangle) : result (pyval F) :=
  getattr e "Stress".

(** [LinearTriangle.resetLoads()]; [setDistLoad] and the [resetLoads] of
    [Element] are inherited from the class that is not in these sources. *)
Context (setDistLoad : pyval F → pyval F → LinearTriangle → result LinearTriangle)
        (Element_resetLoads : LinearTriangle → result LinearTriangle).

Definition resetLoads (e : LinearTriangle) : result LinearTriangle :=
  e1 ← setDistLoad (PInt 0) (PFloat f0) e;
  e2 ← setDistLoad (PInt 1) (PFloat f0) e1;
  e3 ← setDistLoad (PInt 2) (PFloat f0) e2;
  Element_resetLoads e3.

End LinearTriangle.
Arguments LinearTriangle F M : clear implicits.
Arguments stress4 F : clear implicits.
End LinearTriangle.

(** ** femedu/elements/wrapper/Corotational.py *)

(** What the wrapper uses of the element it wraps: two methods without
    arguments, the method [setSurfaceLoad] (found by name, or not) and
    three attributes. *)
Class Element (F E : Type) : Type := {
  el_updateState : E → heap F → result (E * heap F);
  el_resetLoads : E → result E;
  el_setSurfaceLoad : result (pymethod F E);
  el_Forces : E → result (list (Np.vec F));
  el_Kt : E → result (list (list (Np.ndarray F)));
  el_Stress : E → result (pyval F);
}.

Module CorotQuad.
Section CorotQuad.
Context {F E : Type} `{Element F E}.

Record CorotQuad : Type := mkCorotQuad {
  self_id : ObjId;
  wrapped_element : E;
  Forces : list (Np.vec F);
  Kt : list (list (Np.ndarray F));
}.

(** [CorotQuad.setSurfaceLoad(face, pn, ps=0)]:
    [self.wrapped_element.setSurfaceLoad(self, face, pn, ps=0)] *)
Definition setSurfaceLoad (face pn ps : pyval F) (w : CorotQuad)
    : result CorotQuad :=
  m ← el_setSurfaceLoad;
  e ← py_call m [PObj (self_id w); face; pn] [("ps", PInt 0)]
         (wrapped_element w);
  Ok (mkCorotQuad (self_id w) e (Forces w) (Kt w)).

(** [CorotQuad.resetLoads()] *)
Definition resetLoads (w : CorotQuad) : result CorotQuad :=
  e ← el_resetLoads (wrapped_element w);
  Ok (mkCorotQuad (self_id w) e (Forces w) (Kt w)).

(** [CorotQuad.updateState()] *)
Definition updateState (w : CorotQuad) (h : heap F)
    : result (CorotQuad * heap F) :=
  '(e, h1) ← el_updateState (wrapped_element w) h;
  fs ← el_Forces e;
  kt ← el_Kt e;
  Ok (mkCorotQuad (self_id w) e fs kt, h1).

(** [CorotQuad.getStress()] *)
Definition getStress (w : CorotQuad) : result (pyval F) :=
  el_Stress (wrapped_element w).

End CorotQuad.
Arguments CorotQuad F E : clear implicits.
End CorotQuad.

(** The triangle as a wrapped element. *)
#[global] Instance LinearTriangle_Element {F M : Type} `{Scalar F} `{LinAlg F}
    `{Material F M}
    (setDistLoad : pyval F → pyval F → LinearTriangle.LinearTriangle F M
                   → result (LinearTriangle.LinearTriangle F M))
    (Element_resetLoads : LinearTriangle.LinearTriangle F M
                          → result (LinearTriangle.LinearTriangle F M))
    : Element F (LinearTriangle.LinearTriangle F M) := {
  el_updateState := LinearTriangle.updateState;
  el_resetLoads := LinearTriangle.resetLoads setDistLoad Element_resetLoads;
  el_setSurfaceLoad := Ok LinearTriangle.setSurfaceLoad_method;
  el_Forces e := Ok (LinearTriangle.Forces e);
  el_Kt e := Ok (LinearTriangle.Kt e);
  el_Stress e := LinearTriangle.getattr e "Stress";
}.

(** An element that counts the calls of its [updateState]: the wrapped
    element with a call counter next to it. *)
Record counted (E : Type) : Type := mkCounted {
  inner : E;
  updates : nat;
}.
Arguments mkCounted {E} _ _.
Arguments inner {E} _.
Arguments updates {E} _.

#[global] Instance counted_Element {F E : Type} `{Element F E}
    : Element F (counted E) := {
  el_updateState c h :=
    '(e, h1) ← el_updateState (inner c) h;
    Ok (mkCounted e (S (updates c)), h1);
  el_resetLoads c :=
    e ← el_resetLoads (inner c); Ok (mkCounted e (updates c));
  el_setSurfaceLoad :=
    m ← el_setSurfaceLoad;
    Ok (mkMethod (params m)
          (λ env c, e ← body m env (inner c); Ok (mkCounted e (updates c))));
  el_Forces c := el_Forces (inner c);
  el_Kt c := el_Kt (inner c);
  el_Stress c := el_Stress (inner c);
}.

(** ** A concrete instance: exact rational arithmetic

    Used to run the definitions on examples.  The square root is exact on
    squares of rationals; the inverse and the determinant are those of a
    2x2 matrix. *)

Definition Qc_sqrt (q : Qc) : Qc :=
  Q2Qc (Z.sqrt (Qnum q) # Pos.sqrt (Qden q)).

#[global] Instance Qc_Scalar : Scalar Qc := {
  f0 := 0%Qc;
  f1 := 1%Qc;
  f2 := Q2Qc 2;
  fhalf := Q2Qc (1 # 2);
  fadd := Qcplus;
  fsub := Qcminus;
  fmul := Qcmult;
  fdiv := Qcdiv;
  fopp := Qcopp;
  np_sqrt := Qc_sqrt;
}.

Definition det2 (m : list (list Qc)) : result Qc :=
  match m with
  | [[a; b]; [c; d]] => Ok (a * d - b * c)%Qc
  | _ => Raise LinAlgError
  end.

Definition inv2 (m : list (list Qc)) : result (list (list Qc)) :=
  match m with
  | [[a; b]; [c; d]] =>
      let det := (a * d - b * c)%Qc in
      if decide (det = 0%Qc) then Raise LinAlgError
      else Ok [[(d / det)%Qc; (- b / det)%Qc];
               [(- c / det)%Qc; (a / det)%Qc]]
  | _ => Raise LinAlgError
  end.

#[global] Instance Qc_LinAlg : LinAlg Qc := {
  linalg_inv := inv2;
  linalg_det := det2;
}.

(** A linear elastic sheet of unit thickness with a constant, symmetric
    tangent: the strain is all of its state. *)
Definition sheet_tangent : list (list Qc) :=
  [[Q2Qc 2; 1%Qc; 0%Qc]; [1%Qc; Q2Qc 2; 0%Qc]; [0%Qc; 0%Qc; 1%Qc]].

#[global] Instance sheet_Material : Material Qc (straindict Qc) := {
  setStrain eps _ := eps;
  getStress eps :=
    mkStress (Q2Qc 2 * eps_xx eps + eps_yy eps)%Qc
             (eps_xx eps + Q2Qc 2 * eps_yy eps)%Qc
             (eps_xy eps);
  getStiffness _ := sheet_tangent;
  getThickness _ := 1%Qc;
}.

(** Three plane nodes at (0,0), (1,0), (0,1), and the triangle built on
    them by element 100 with the sheet material. *)
Definition unit_nodes : heap Qc := λ i,
  match i with
  | 0 => Node.__init__ 0%Qc 0%Qc None
  | 1 => Node.__init__ 1%Qc 0%Qc None
  | _ => Node.__init__ 0%Qc 1%Qc None
  end.

Definition unit_triangle
    : result (LinearTriangle.LinearTriangle Qc (straindict Qc) * heap Qc) :=
  LinearTriangle.__init__ 100 ∅ 0 1 2 (mkStrain 0%Qc 0%Qc 0%Qc) unit_nodes.

(** The same triangle on nodes with three coordinates. *)
Definition space_nodes : heap Qc := λ i,
  match i with
  | 0 => Node.__init__ 0%Qc 0%Qc (Some 0%Qc)
  | 1 => Node.__init__ 1%Qc 0%Qc (Some 0%Qc)
  | _ => Node.__init__ 0%Qc 1%Qc (Some 0%Qc)
  end.

Definition space_triangle
    : result (LinearTriangle.LinearTriangle Qc (straindict Qc) * heap Qc) :=
  LinearTriangle.__init__ 100 ∅ 0 1 2 (mkStrain 0%Qc 0%Qc 0%Qc) space_nodes.

(** The methods that the class [Element] would provide, as they are
    when it provides none. *)
Definition no_setDistLoad {F M : Type} (face w : pyval F)
    (e : LinearTriangle.LinearTriangle F M)
    : result (LinearTriangle.LinearTriangle F M) :=
  Raise (AttributeError "setDistLoad").
Definition no_resetLoads {F M : Type} (e : LinearTriangle.LinearTriangle F M)
    : result (LinearTriangle.LinearTriangle F M) :=
  Raise (AttributeError "resetLoads").

(** * Properties of the node *)

Section NodeProps.
Context {F : Type} {SF : Scalar F}.
Implicit Types (n : Node.Node F) (d dof : string) (dl : list string).

Lemma same_state_refl n : Node.same_state n n.
Proof. by repeat split. Qed.

Lemma request_dof_known n d i :
  Node.dofs n !! d = Some i → Node.request_dof n d = (n, Ok i).
Proof.
  intros Hd. unfold Node.request_dof.
  destruct (decide _) as [Hn|_]; [congruence|].
  by rw /dict_getitem Hd.
Qed.

Lemma request_dof_new n d :
  Node.dofs n !! d = None →
  Node.request_dof n d =
    (Node.set_dofs (<[d := Node.ndofs n]> (Node.dofs n))
                   (S (Node.ndofs n)) n, Ok (Node.ndofs n)).
Proof.
  intros Hd. unfold Node.request_dof.
  destruct (decide _) as [_|Hn]; [|done].
  by rw /dict_getitem /= lookup_insert_eq.
Qed.

Lemma registry_ok_insert n d :
  Node.registry_ok n → Node.dofs n !! d = None →
  Node.registry_ok
    (Node.set_dofs (<[d := Node.ndofs n]> (Node.dofs n)) (S (Node.ndofs n)) n).
Proof.
  intros (Hsz & Hlt & Hinj) Hd. split; [|split]; simpl.
  - by rw map_size_insert_None // Hsz.
  - intros d' i. rw lookup_insert. case_decide; simplify_eq.
    + intros [= <-]. lia.
    + intros Hi%Hlt. lia.
  - intros d1 d2 i. rw !lookup_insert.
    repeat case_decide; simplify_eq; try done.
    + intros [= <-] Hi%Hlt. lia.
    + intros Hi%Hlt [= <-]. lia.
    + apply Hinj.
Qed.

(** The loop of [request]: it never raises, keeps what was registered,
    registers exactly the codes it is given and returns their indices. *)
Lemma request_loop_spec dl : ∀ n acc,
  Node.registry_ok n →
  ∃ n' idx,
    Node.request_loop dl n acc = (n', Ok (acc ++ idx)) ∧
    Node.registry_ok n' ∧
    Node.dofs n ⊆ Node.dofs n' ∧
    dom (Node.dofs n') = dom (Node.dofs n) ∪ list_to_set dl ∧
    Forall2 (λ d i, Node.dofs n' !! d = Some i) dl idx ∧
    Node.same_state n n' ∧ Node.elements n' = Node.elements n ∧
    (∀ k d, dl !! k = Some d → Node.dofs n !! d = None → d ∉ take k dl →
       idx !! k = Some (Node.ndofs n
                        + size (Node.unknown_codes n (take k dl)))).
Proof.
  induction dl as [|d dl IH]; intros n acc Hok.
  - exists n, []. rw app_nil_r. simpl.
    split_and!; try done. by rw right_id_L.
  - cbn [Node.request_loop]. destruct (Node.dofs n !! d) as [i|] eqn:Hd.
    + rw (request_dof_known _ _ _ Hd).
      destruct (IH n (acc ++ [i]) Hok)
        as (n' & idx & Hrun & Hok' & Hsub & Hdom & Hidx & Hsame & Hel & Hpos).
      exists n', (i :: idx). rw Hrun -app_assoc /=.
      apply elem_of_dom_2 in Hd as Hdd.
      split_and!; try done.
      * rw Hdom. clear -Hdd. set_solver.
      * constructor; [|done]. by eapply lookup_weaken.
      * intros [|k] d' Hk Hnew Hfresh; [simpl in Hk; congruence|].
        simpl in Hk, Hfresh |- *.
        apply not_elem_of_cons in Hfresh as [Hne Hfresh].
        rw (Hpos k d' Hk Hnew Hfresh).
        do 3 f_equal. unfold Node.unknown_codes. clear -Hdd. set_solver.
    + rw (request_dof_new _ _ Hd).
      set (n1 := Node.set_dofs _ _ n).
      destruct (IH n1 (acc ++ [Node.ndofs n]) (registry_ok_insert _ _ Hok Hd))
        as (n' & idx & Hrun & Hok' & Hsub & Hdom & Hidx & Hsame & Hel & Hpos).
      exists n', (Node.ndofs n :: idx). rw Hrun -app_assoc /=.
      assert (Node.dofs n ⊆ Node.dofs n1) as Hsub1
        by by apply insert_subseteq.
      split_and!; try done.
      * by etrans.
      * rw Hdom /= dom_insert_L. clear. set_solver.
      * constructor; [|done].
        eapply lookup_weaken; [|done]. by rw /= lookup_insert_eq.
      * intros [|k] d' Hk Hnew Hfresh.
        { simpl. f_equal. unfold Node.unknown_codes. simpl.
          assert ((∅ ∖ dom (Node.dofs n) : gset string) = ∅) as ->
            by (clear; set_solver).
          rw size_empty. lia. }
        simpl in Hk, Hfresh |- *.
        apply not_elem_of_cons in Hfresh as [Hne Hfresh].
        assert (Node.dofs n1 !! d' = None) as Hnew1
          by by rw /= lookup_insert_ne.
        rw (Hpos k d' Hk Hnew1 Hfresh).
        f_equal. unfold Node.unknown_codes. simpl. rw dom_insert_L.
        apply not_elem_of_dom_2 in Hd.
        assert (({[d]} ∪ list_to_set (take k dl)) ∖ dom (Node.dofs n)
                = {[d]} ∪ (list_to_set (take k dl)
                           ∖ ({[d]} ∪ dom (Node.dofs n)) : gset string)) as ->.
        { clear -Hd. apply set_eq. intros x.
          destruct (decide (x = d)); set_solver. }
        rw size_union; [|clear; set_solver]. rw size_singleton. lia.
Qed.

(** One call of [request], from a consistent registry. *)
Lemma request_spec n dl caller :
  Node.registry_ok n →
  ∃ n' idx,
    Node.request dl caller n = (n', Ok idx) ∧
    Node.registry_ok n' ∧
    Node.dofs n ⊆ Node.dofs n' ∧
    dom (Node.dofs n') = dom (Node.dofs n) ∪ list_to_set dl ∧
    Forall2 (λ d i, Node.dofs n' !! d = Some i) dl idx ∧
    Node.same_state n n' ∧
    Node.elements n' = (if decide (caller ∈ Node.elements n)
                        then Node.elements n
                        else Node.elements n ++ [caller]) ∧
    (∀ k d, dl !! k = Some d → Node.dofs n !! d = None → d ∉ take k dl →
       idx !! k = Some (Node.ndofs n
                        + size (Node.unknown_codes n (take k dl)))).
Proof.
  intros Hok.
  destruct (request_loop_spec dl n [] Hok)
    as (n' & idx & Hrun & Hok' & Hsub & Hdom & Hidx & Hsame & Hel & Hpos).
  unfold Node.request. rw Hrun /= Hel.
  destruct (decide (caller ∈ Node.elements n)) as [Hin|Hin].
  - exists n', idx. by split_and!.
  - exists (Node.set_elements (Node.elements n ++ [caller]) n'), idx.
    by split_and!.
Qed.

Lemma registry_size n n' dl :
  Node.registry_ok n → Node.registry_ok n' →
  dom (Node.dofs n') = dom (Node.dofs n) ∪ list_to_set dl →
  Node.ndofs n' = Node.ndofs n + size (Node.unknown_codes n dl).
Proof.
  intros (Hsz & _) (Hsz' & _) Hdom.
  rw Hsz Hsz' -!size_dom Hdom /Node.unknown_codes.
  rw (union_difference_L (dom (Node.dofs n))
        (dom (Node.dofs n) ∪ list_to_set dl)); [|clear; set_solver].
  rw size_union; [|clear; set_solver].
  do 2 f_equal. clear. set_solver.
Qed.

Lemma fixDOF_frame codes : ∀ n,
  Node.dofs (Node.fixDOF codes n) = Node.dofs n ∧
  Node.ndofs (Node.fixDOF codes n) = Node.ndofs n ∧
  Node.elements (Node.fixDOF codes n) = Node.elements n ∧
  Node.disp (Node.fixDOF codes n) = Node.disp n ∧
  Node.loads (Node.fixDOF codes n) = Node.loads n ∧
  Node.pos (Node.fixDOF codes n) = Node.pos n ∧
  Node.index (Node.fixDOF codes n) = Node.index n.
Proof.
  induction codes as [|c codes IH]; intros n; [done|].
  simpl. destruct (decide _); [apply IH|].
  destruct (IH (Node.set_fixity (Node.fixity n ++ [c]) n))
    as (-> & -> & -> & -> & -> & -> & ->). done.
Qed.

(** Only [request] touches the registry and the list of dependents. *)
Lemma exec_registry_frame (c : Node.call F) n :
  (∀ dl caller, c ≠ Node.Request dl caller) →
  Node.dofs (Node.exec c n) = Node.dofs n ∧
  Node.ndofs (Node.exec c n) = Node.ndofs n ∧
  Node.elements (Node.exec c n) = Node.elements n.
Proof.
  intros Hc. destruct c as [dl cl|codes|U|dU|arg|fac|lds codes|lds codes| | |];
    simpl; try done.
  - by destruct (Hc dl cl).
  - destruct (fixDOF_frame codes n) as (-> & -> & -> & _). done.
  - unfold Node._updateDisp.
    destruct (Node.disp n) as [|v|x|l]; simpl; try done.
    + by destruct dU.
    + by destruct (Np.iadd v dU).
  - unfold Node.getDisp, Node.ensure_disp.
    destruct (Node.disp n); simpl; by repeat case_match.
  - unfold Node.getDeformedPos, Node.ensure_disp.
    by destruct (Node.disp n).
Qed.

Lemma call_cases (c : Node.call F) :
  (∃ dl cl, c = Node.Request dl cl) ∨ (∀ dl cl, c ≠ Node.Request dl cl).
Proof. destruct c; eauto. Qed.

Lemma exec_registry_ok (c : Node.call F) n :
  Node.registry_ok n → Node.registry_ok (Node.exec c n).
Proof.
  intros Hok. destruct (call_cases c) as [(dl & cl & ->)|Hc].
  - destruct (request_spec n dl cl Hok) as (n' & idx & Hrun & Hok' & _).
    by rw /= Hrun.
  - destruct (exec_registry_frame c n) as (Hd & Hn & _); [done|].
    unfold Node.registry_ok. by rw Hd Hn.
Qed.

Lemma exec_dofs_mono (c : Node.call F) n :
  Node.registry_ok n → Node.dofs n ⊆ Node.dofs (Node.exec c n).
Proof.
  intros Hok. destruct (call_cases c) as [(dl & cl & ->)|Hc].
  - destruct (request_spec n dl cl Hok) as (n' & idx & Hrun & _ & Hsub & _).
    by rw /= Hrun.
  - destruct (exec_registry_frame c n) as (-> & _); done.
Qed.

Lemma exec_elements (c : Node.call F) n :
  Node.registry_ok n → NoDup (Node.elements n) →
  NoDup (Node.elements (Node.exec c n)) ∧
  Node.elements n ⊆ Node.elements (Node.exec c n).
Proof.
  intros Hok Hnd. destruct (call_cases c) as [(dl & cl & ->)|Hc].
  - destruct (request_spec n dl cl Hok)
      as (n' & idx & Hrun & _ & _ & _ & _ & _ & Hel & _).
    rw /= Hrun /= Hel. case_decide; [done|]. split.
    + apply NoDup_app. split_and!; [done| |apply NoDup_singleton].
      intros x Hx ->%list_elem_of_singleton. done.
    + intros x Hx. apply elem_of_app. by left.
  - destruct (exec_registry_frame c n) as (_ & _ & ->); done.
Qed.

Lemma run_snoc (cs : list (Node.call F)) c n :
  Node.run (cs ++ [c]) n = Node.exec c (Node.run cs n).
Proof. unfold Node.run. by rw foldl_app. Qed.

Lemma run_invariants (cs : list (Node.call F)) n :
  Node.registry_ok n → NoDup (Node.elements n) →
  Node.registry_ok (Node.run cs n) ∧
  NoDup (Node.elements (Node.run cs n)) ∧
  Node.dofs n ⊆ Node.dofs (Node.run cs n) ∧
  Node.elements n ⊆ Node.elements (Node.run cs n).
Proof.
  intros Hok Hnd. induction cs as [|c cs IH] using rev_ind; [done|].
  destruct IH as (Hok1 & Hnd1 & Hsub1 & Hel1). rw run_snoc.
  destruct (exec_elements c _ Hok1 Hnd1) as [Hnd2 Hel2]. split_and!.
  - by apply exec_registry_ok.
  - done.
  - etrans; [done|]. by apply exec_dofs_mono.
  - by etrans.
Qed.

Lemma init_registry_ok (x0 y0 : F) z0 :
  Node.registry_ok (Node.__init__ x0 y0 z0).
Proof. by split_and!. Qed.

Lemma reachable_registry_ok n :
  Node.reachable n → Node.registry_ok n ∧ NoDup (Node.elements n).
Proof.
  intros (x0 & y0 & z0 & cs & ->).
  destruct (run_invariants cs (Node.__init__ x0 y0 z0)) as (? & ? & _);
    [apply init_registry_ok|apply NoDup_nil_2|done].
Qed.

(** C1. Take any node with a consistent registry, run any sequence of
    calls on it and then call [request(dof_list, caller)].  The call
    returns (it does not raise); every code registered before (at the
    start, and just before the call) keeps its index; a code that was
    unknown gets, at its first occurrence in [dof_list], the old DOF count
    plus the number of distinct unknown codes requested before it, and the
    DOF count grows by the number of distinct unknown codes and stays the
    number of registered codes; the tuple returned holds the indices of
    the requested codes in the order requested; the caller is recorded,
    and no dependent is recorded twice. *)
Theorem request_indices_stable (cs : list (Node.call F)) dl caller n0 :
  Node.registry_ok n0 → NoDup (Node.elements n0) →
  let n := Node.run cs n0 in
  ∃ n' idx,
    Node.request dl caller n = (n', Ok idx) ∧
    (∀ d i, Node.dofs n0 !! d = Some i → Node.dofs n' !! d = Some i) ∧
    (∀ d i, Node.dofs n !! d = Some i → Node.dofs n' !! d = Some i) ∧
    (∀ k d, dl !! k = Some d → Node.dofs n !! d = None → d ∉ take k dl →
       idx !! k = Some (Node.ndofs n
                        + size (Node.unknown_codes n (take k dl)))) ∧
    Node.ndofs n' = Node.ndofs n + size (Node.unknown_codes n dl) ∧
    Node.ndofs n' = size (Node.dofs n') ∧
    Forall2 (λ d i, Node.dofs n' !! d = Some i) dl idx ∧
    caller ∈ Node.elements n' ∧
    NoDup (Node.elements n') ∧
    (∀ c, c ∈ Node.elements n → c ∈ Node.elements n').
Proof.
  intros Hok0 Hnd0 n.
  destruct (run_invariants cs n0 Hok0 Hnd0) as (Hok & Hnd & Hsub0 & _).
  fold n in Hok, Hnd, Hsub0.
  destruct (request_spec n dl caller Hok)
    as (n' & idx & Hrun & Hok' & Hsub & Hdom & Hidx & _ & Hel & Hpos).
  exists n', idx. split_and!; try done.
  - intros d i Hd. eapply lookup_weaken; [|done]. by eapply lookup_weaken.
  - intros d i Hd. by eapply lookup_weaken.
  - by eapply registry_size.
  - apply Hok'.
  - rw Hel. case_decide; [done|]. apply elem_of_app. right. by left.
  - rw Hel. case_decide; [done|].
    apply NoDup_app. split_and!; [done| |apply NoDup_singleton].
    intros x Hx ->%list_elem_of_singleton. done.
  - intros c Hc. rw Hel. case_decide; [done|]. apply elem_of_app. by left.
Qed.

(** *** The displacement array *)

Lemma iadd_length (v dU v' : list F) :
  Np.iadd v dU = Ok v' → length v' = length v.
Proof.
  unfold Np.iadd. case_decide as Hl.
  - intros [= <-]. rw length_zip_with. lia.
  - destruct dU as [|b [|??]]; intros [= <-]. by rw length_map.
Qed.

Lemma ensure_disp_ok n :
  Node.disp_ok n →
  Node.disp_ok (Node.ensure_disp n).1 ∧
  Node.dofs (Node.ensure_disp n).1 = Node.dofs n ∧
  Node.ndofs (Node.ensure_disp n).1 = Node.ndofs n.
Proof.
  unfold Node.disp_ok, Node.ensure_disp.
  destruct (Node.disp n) as [|v|x|l] eqn:Hd; simpl; try done.
  - intros _. by rw /Np.zeros length_replicate.
  - by rw Hd.
Qed.

Lemma exec_disp_ok (c : Node.call F) n :
  Node.registry_ok n → Node.disp_ok n → Node.settled [c] n = true →
  Node.disp_ok (Node.exec c n).
Proof.
  intros Hok Hd Hs. simpl in Hs. rw andb_true_r in Hs.
  destruct c as [dl cl|codes|U|dU|arg|fac|lds codes|lds codes| | |];
    simpl; try done.
  - destruct (request_spec n dl cl Hok)
      as (n' & idx & Hrun & Hok' & _ & Hdom & _ & Hsame & _).
    rw Hrun /=. destruct Hsame as (_ & _ & Hdisp & _).
    unfold Node.disp_ok in *. rw Hdisp.
    destruct (Node.disp n) as [|v|x|l]; try done.
    apply bool_decide_eq_true in Hs.
    rw (registry_size n n' dl Hok Hok' Hdom) Hs size_empty. lia.
  - unfold Node.disp_ok.
    by destruct (fixDOF_frame codes n) as (_ & -> & _ & -> & _).
  - unfold Node._updateDisp, Node.disp_ok in *.
    destruct (Node.disp n) as [|v|x|l] eqn:Hdisp; try done.
    destruct (Np.iadd v dU) as [v'|e] eqn:Hadd; simpl.
    + by rw (iadd_length _ _ _ Hadd).
    + by rw Hdisp.
  - unfold Node.getDisp.
    destruct (ensure_disp_ok n Hd) as (Hd1 & _).
    destruct (Node.ensure_disp n) as [n1 v]. simpl in Hd1.
    by repeat case_match.
  - unfold Node.getDeformedPos.
    destruct (ensure_disp_ok n Hd) as (Hd1 & _).
    by destruct (Node.ensure_disp n) as [n1 v].
  - unfold Node.disp_ok. simpl. rw /Np.zeros length_replicate.
    symmetry. apply Hok.
  - unfold Node.disp_ok. simpl. rw /Np.zeros length_replicate.
    symmetry. apply Hok.
Qed.

(** C2, as the code has it.  Start from a node whose displacement is
    [None] or has one entry per DOF.  Along any sequence of calls without
    [setDisp], in which no [request] registers a new code once the array
    exists and [_updateDisp] is not applied to [None], the displacement
    array, whenever it exists, has as many entries as there are registered
    codes. *)
Theorem disp_length_settled (cs : list (Node.call F)) n k :
  Node.registry_ok n → Node.disp_ok n → Node.settled cs n = true →
  Node.disp_len (Node.run cs n) = Some k →
  k = size (Node.dofs (Node.run cs n)).
Proof.
  intros Hok Hd Hs Hk.
  assert (Node.registry_ok (Node.run cs n) ∧ Node.disp_ok (Node.run cs n))
    as [Hok' Hd'].
  { clear Hk. revert n Hok Hd Hs.
    induction cs as [|c cs IH]; intros n Hok Hd Hs; [done|].
    apply andb_true_iff in Hs as [Hc Hs]. apply IH; [| |done].
    - by apply exec_registry_ok.
    - apply exec_disp_ok; [done..|]. by rw /= Hc. }
  unfold Node.disp_len, Node.disp_ok in *.
  destruct (Node.disp (Node.run cs n)); simplify_eq.
  rw Hd'. apply Hok'.
Qed.

(** *** Fixity *)

(** [areFixed] counts the entries of the fixity list: it returns
    [0, 1, ..., len(fixity) - 1] whatever the codes are. *)
Lemma areFixed_positions n :
  Node.areFixed n = seq 0 (length (Node.fixity n)).
Proof.
  unfold Node.areFixed. generalize (Node.fixity n). intros l.
  rw imap_seq_0. by rw list_fmap_id.
Qed.

(** *** dof2idx *)

Lemma dof2idx_loop_spec n dl : ∀ acc,
  match Node.dof2idx_loop n dl acc with
  | Ok idx => ∃ idx', idx = acc ++ idx' ∧
                      Forall2 (λ d i, Node.dofs n !! d = Some i) dl idx'
  | Raise e =>
      ∃ pre d post, dl = pre ++ d :: post ∧
        Forall (λ d', is_Some (Node.dofs n !! d')) pre ∧
        Node.dofs n !! d = None ∧
        e = KeyError (Node.missing_dof_msg d (Node.index n))
  end.
Proof.
  induction dl as [|d dl IH]; intros acc; simpl.
  - exists []. by rw app_nil_r.
  - destruct (Node.dofs n !! d) as [i|] eqn:Hd.
    + specialize (IH (acc ++ [i])).
      destruct (Node.dof2idx_loop n dl (acc ++ [i])) as [idx|e].
      * destruct IH as (idx' & -> & Hall). exists (i :: idx').
        rw -app_assoc. split; [done|]. by constructor.
      * destruct IH as (pre & d' & post & -> & Hpre & Hd' & ->).
        exists (d :: pre), d', post. split_and!; try done.
        constructor; [by rw Hd|done].
    + exists [], d, dl. by split_and!.
Qed.

(** C9. [dof2idx] either returns the local indices of the codes it was
    given, in the order given, all of them registered; or it raises a
    [KeyError] (a [LookupError]) whose message is ["Dof <code> does not
    exist in node <index>"] for the first code of the argument that is not
    in the registry.  So it raises exactly when some code is missing. *)
Theorem dof2idx_lookup n (arg : Node.dofarg) :
  match Node.dof2idx n arg with
  | Ok idx =>
      Forall2 (λ d i, Node.dofs n !! d = Some i) (Node.codes_of arg) idx
  | Raise e =>
      ∃ pre d post, Node.codes_of arg = pre ++ d :: post ∧
        Forall (λ d', is_Some (Node.dofs n !! d')) pre ∧
        Node.dofs n !! d = None ∧
        e = KeyError ("Dof " +:+ d +:+ " does not exist in node "
                      +:+ pretty (Node.index n)) ∧
        is_LookupError e = true
  end.
Proof.
  destruct arg as [d|dl]; simpl.
  - unfold Node.dof2idx_one. destruct (Node.dofs n !! d) as [i|] eqn:Hd; simpl.
    + by repeat constructor.
    + exists [], d, []. by split_and!.
  - pose proof (dof2idx_loop_spec n dl []) as Hl.
    destruct (Node.dof2idx_loop n dl []) as [idx|e].
    + by destruct Hl as (idx' & -> & Hall).
    + destruct Hl as (pre & d & post & -> & Hpre & Hd & ->).
      exists pre, d, post. by split_and!.
Qed.

(** *** Loads *)

Lemma loads_get_key (l : list (string * F)) d :
  d ∈ map fst l ↔ is_Some (Node.loads_get l d).
Proof.
  induction l as [|[k x] l IH]; simpl.
  - split; [by intros ?%elem_of_nil|by intros [? ?]].
  - case_decide as Hk.
    + subst. split; [by eexists|]. intros _. by left.
    + rw -IH. split; [|by right]. intros [?|?]%elem_of_cons; by simplify_eq.
Qed.

Lemma loads_get_set_ne (l : list (string * F)) k d x :
  k ≠ d → Node.loads_get (Node.loads_set l k x) d = Node.loads_get l d.
Proof.
  intros Hne. induction l as [|[k' y] l IH]; simpl.
  - by case_decide.
  - destruct (decide (k' = k)) as [->|Hk]; simpl.
    + by repeat case_decide.
    + case_decide; [done|apply IH].
Qed.

Lemma setLoad_loop_other pairs d : ∀ (l : list (string * F)),
  Forall (λ p, p.2 ≠ d) pairs →
  Node.loads_get (Node.setLoad_loop pairs l) d = Node.loads_get l d.
Proof.
  induction pairs as [|[x k] pairs IH]; intros l Hall; [done|].
  apply Forall_cons in Hall as [Hk Hall]. simpl.
  rw (IH _ Hall). by apply loads_get_set_ne.
Qed.

Lemma addLoad_loop_other pairs d : ∀ (l : list (string * F)),
  Forall (λ p, p.2 ≠ d) pairs →
  Node.loads_get (Node.addLoad_loop pairs l) d = Node.loads_get l d.
Proof.
  induction pairs as [|[x k] pairs IH]; intros l Hall; [done|].
  apply Forall_cons in Hall as [Hk Hall]. simpl.
  rw (IH _ Hall). destruct (Node.loads_get l k); by apply loads_get_set_ne.
Qed.

Lemma code_at_Some n i d :
  Node.code_at n i = Some d → Node.dofs n !! d = Some i.
Proof.
  unfold Node.code_at.
  destruct (list_find _ _) as [[k [d' i']]|] eqn:Hf; [|done].
  intros [= <-]. apply list_find_Some in Hf as (Hl & Hi & _). simpl in Hi.
  subst. apply elem_of_map_to_list. by eapply list_elem_of_lookup_2.
Qed.

Lemma code_at_None n i d :
  Node.code_at n i = None → Node.dofs n !! d ≠ Some i.
Proof.
  unfold Node.code_at.
  destruct (list_find _ _) as [[k [d' i']]|] eqn:Hf; [done|].
  intros _ Hd. apply list_find_None in Hf.
  apply elem_of_map_to_list in Hd.
  by eapply (proj1 (Forall_forall _ _) Hf) in Hd.
Qed.

Lemma getLoad_loop_spec n keys : ∀ force,
  Node.registry_ok n → length force = Node.ndofs n →
  Forall (λ k, is_Some (Node.loads_get (Node.loads n) k)) keys →
  ∃ force',
    Node.getLoad_loop n keys force = Ok force' ∧
    length force' = Node.ndofs n ∧
    (∀ d i x, d ∈ keys → Node.dofs n !! d = Some i →
       Node.loads_get (Node.loads n) d = Some x → force' !! i = Some x) ∧
    (∀ i, (∀ d, d ∈ keys → Node.dofs n !! d ≠ Some i) →
       force' !! i = force !! i).
Proof.
  induction keys as [|d keys IH]; intros force Hok Hlen Hkeys.
  - exists force. split_and!; try done. by intros ??? ?%elem_of_nil.
  - apply Forall_cons in Hkeys as [[x0 Hx0] Hkeys]. simpl.
    destruct (Node.dofs n !! d) as [i0|] eqn:Hd.
    + rw Hx0. destruct Hok as (Hsz & Hlt & Hinj).
      assert (i0 < length force) as Hi0 by (rw Hlen; by eapply Hlt).
      rw /Node.setitem decide_True //=.
      destruct (IH (<[i0:=x0]> force)) as (force' & Hrun & Hlen' & Ha & Hb);
        [done|by rw length_insert|done|].
      exists force'. split_and!; try done.
      * intros d' i x [->|Hin]%elem_of_cons Hd' Hx; [|by eapply Ha].
        destruct (decide (d ∈ keys)) as [Hk|Hk]; [by eapply Ha|].
        simplify_eq. rw Hb; [by rw list_lookup_insert_eq|].
        intros d' Hd' Hi. by rw (Hinj _ _ _ Hi Hd) in Hd'.
      * intros i Hi. rw Hb.
        -- apply list_lookup_insert_ne. intros ->. eapply Hi; [by left|done].
        -- intros d' Hd'. apply Hi. by right.
    + destruct (IH force) as (force' & Hrun & Hlen' & Ha & Hb); [done..|].
      exists force'. split_and!; try done.
      * intros d' i x [->|Hin]%elem_of_cons Hd' Hx; [congruence|by eapply Ha].
      * intros i Hi. apply Hb. intros d' Hd'. apply Hi. by right.
Qed.

Lemma getLoad_projected n :
  Node.registry_ok n → Node.getLoad n = Ok (Node.projected_loads n).
Proof.
  intros Hok. unfold Node.getLoad.
  destruct (getLoad_loop_spec n (map fst (Node.loads n))
              (Np.zeros (Node.ndofs n)) Hok)
    as (force & -> & Hlen & Ha & Hb).
  { by rw /Np.zeros length_replicate. }
  { apply Forall_forall. intros k Hk. by apply loads_get_key. }
  f_equal. apply list_eq. intros i. unfold Node.projected_loads.
  rw list_lookup_fmap.
  destruct (decide (i < Node.ndofs n)) as [Hi|Hi].
  - rw lookup_seq_lt //=.
    destruct (Node.code_at n i) as [d|] eqn:Hc; simpl.
    + apply code_at_Some in Hc.
      destruct (Node.loads_get (Node.loads n) d) as [x|] eqn:Hx; simpl.
      * eapply Ha; [|done..]. apply loads_get_key. by rw Hx.
      * rw Hb; [by apply lookup_replicate_2|].
        intros d' Hd' Hi'. destruct Hok as (_ & _ & Hinj).
        rw (Hinj _ _ _ Hi' Hc) in Hd'. apply loads_get_key in Hd'.
        rw Hx in Hd'. by destruct Hd'.
    + rw Hb; [by apply lookup_replicate_2|].
      intros d _. by apply code_at_None.
  - rw lookup_seq_ge; [|lia]. simpl. apply lookup_ge_None. lia.
Qed.

Lemma projected_loads_ext n n' :
  Node.dofs n' = Node.dofs n → Node.ndofs n' = Node.ndofs n →
  (∀ d, is_Some (Node.dofs n !! d) →
     Node.loads_get (Node.loads n') d = Node.loads_get (Node.loads n) d) →
  Node.projected_loads n' = Node.projected_loads n.
Proof.
  intros Hd Hn Hl. unfold Node.projected_loads. rw Hn.
  apply map_ext. intros i. unfold Node.code_at at 1. rw Hd.
  fold (Node.code_at n i).
  destruct (Node.code_at n i) as [d|] eqn:Hc; [|done]. simpl.
  apply code_at_Some in Hc. by rw Hl.
Qed.

(** C10. On a node with a consistent registry, [getLoad()] returns (it
    does not raise) the load map read in the local DOF ordering: a vector
    with one entry per registered code.  Loads set or added for codes
    that are not registered leave the result as it was. *)
Theorem getLoad_ignores_unregistered n (lds : list F) (codes : list string) :
  Node.registry_ok n →
  Forall (λ d, Node.dofs n !! d = None) codes →
  Node.getLoad n = Ok (Node.projected_loads n) ∧
  length (Node.projected_loads n) = size (Node.dofs n) ∧
  Node.getLoad (Node.setLoad lds codes n) = Node.getLoad n ∧
  Node.getLoad (Node.addLoad lds codes n) = Node.getLoad n.
Proof.
  intros Hok Hcodes.
  assert (∀ d, is_Some (Node.dofs n !! d) →
               Forall (λ p : F * string, p.2 ≠ d) (zip lds codes)) as Hne.
  { intros d [i Hd]. apply Forall_forall. intros [x k] Hin.
    apply elem_of_zip_r in Hin. simpl. intros ->.
    eapply (proj1 (Forall_forall _ _) Hcodes) in Hin. congruence. }
  split_and!.
  - by apply getLoad_projected.
  - rw /Node.projected_loads length_map length_seq. apply Hok.
  - rw !getLoad_projected //. f_equal. apply projected_loads_ext; [done..|].
    intros d Hd. apply setLoad_loop_other. by apply Hne.
  - rw !getLoad_projected //. f_equal. apply projected_loads_ext; [done..|].
    intros d Hd. apply addLoad_loop_other. by apply Hne.
Qed.

End NodeProps.

(** * Properties of the elements *)

Lemma bind_Ok {A B} (r : result A) (f : A → result B) b :
  r ≫= f = Ok b → ∃ a, r = Ok a ∧ f a = Ok b.
Proof. destruct r as [a|e]; [by exists a|done]. Qed.

(** Peel the successful steps off a computation that returned. *)
Ltac inv_bind H :=
  repeat first
    [ apply bind_Ok in H as (? & ? & H)
    | match type of H with
      | (let '(_, _) := ?p in _) = _ => destruct p
      end ];
  cbn beta iota in H.

Section PythonProps.
Context {F : Type}.

(** Three positional arguments and the keyword [ps] cannot be bound to
    a method with at most three parameters: either there are too many
    positional arguments, or [ps] is no parameter, or it is one that a
    positional argument has filled. *)
Lemma bind_args_extra_positional (ps : list (string * option (pyval F)))
    (a b c v : pyval F) :
  length ps ≤ 3 → bind_args ps [a; b; c] [("ps", v)] = Raise TypeError.
Proof.
  intros Hlen. unfold bind_args. case_decide as Hlt; [done|].
  destruct ps as [|[k1 d1] [|[k2 d2] [|[k3 d3] [|??]]]];
    simpl in *; try lia.
  repeat case_decide; try done; set_solver.
Qed.

End PythonProps.

Section WrapperProps.
Context {F E : Type} `{Element F E}.

Lemma CorotQuad_updateState_Ok (w : CorotQuad.CorotQuad F E) h e h1 fs kt :
  el_updateState (CorotQuad.wrapped_element w) h = Ok (e, h1) →
  el_Forces e = Ok fs → el_Kt e = Ok kt →
  CorotQuad.updateState w h
  = Ok (CorotQuad.mkCorotQuad (CorotQuad.self_id w) e fs kt, h1).
Proof.
  intros Hup Hfs Hkt. unfold CorotQuad.updateState.
  by rw Hup /= Hfs /= Hkt.
Qed.

Lemma CorotQuad_updateState_Raise (w : CorotQuad.CorotQuad F E) h x :
  el_updateState (CorotQuad.wrapped_element w) h = Raise x →
  CorotQuad.updateState w h = Raise x.
Proof. intros Hup. unfold CorotQuad.updateState. by rw Hup. Qed.

(** [resetLoads] on the wrapper is [resetLoads] on the element. *)
Lemma CorotQuad_resetLoads_delegates (w : CorotQuad.CorotQuad F E) :
  CorotQuad.resetLoads w
  = e ← el_resetLoads (CorotQuad.wrapped_element w);
    Ok (CorotQuad.mkCorotQuad (CorotQuad.self_id w) e
          (CorotQuad.Forces w) (CorotQuad.Kt w)).
Proof. done. Qed.

(** [setSurfaceLoad] on the wrapper raises [TypeError] for every wrapped
    element whose [setSurfaceLoad] has up to three parameters (as
    [face, w] of the triangle or [face, pn, ps=0] of the wrapper). *)
Lemma CorotQuad_setSurfaceLoad_TypeError (w : CorotQuad.CorotQuad F E)
    (m : pymethod F E) (face pn ps : pyval F) :
  el_setSurfaceLoad = Ok m → length (params m) ≤ 3 →
  CorotQuad.setSurfaceLoad face pn ps w = Raise TypeError.
Proof.
  intros Hm Hlen. unfold CorotQuad.setSurfaceLoad, py_call.
  by rw Hm /= bind_args_extra_positional.
Qed.

End WrapperProps.

Section CountedProps.
Context {F E : Type} `{Element F E}.

(** C4. Wrap an element, with a call counter next to it.  When the
    element's own [updateState] returns for the given nodes and its
    [Forces] and [Kt] can be read, the wrapper's [updateState] returns as
    well, on the same nodes; the element is left as one call of its
    [updateState] leaves it and the counter has gone up by one; and the
    wrapper's [Forces] and [Kt] are those of the element. *)
Theorem CorotQuad_updateState_delegates
    (w : CorotQuad.CorotQuad F (counted E)) h e h1 fs kt :
  el_updateState (inner (CorotQuad.wrapped_element w)) h = Ok (e, h1) →
  el_Forces e = Ok fs → el_Kt e = Ok kt →
  ∃ w',
    CorotQuad.updateState w h = Ok (w', h1) ∧
    inner (CorotQuad.wrapped_element w') = e ∧
    updates (CorotQuad.wrapped_element w')
    = S (updates (CorotQuad.wrapped_element w)) ∧
    CorotQuad.Forces w' = fs ∧ CorotQuad.Kt w' = kt ∧
    el_Forces (CorotQuad.wrapped_element w') = Ok (CorotQuad.Forces w') ∧
    el_Kt (CorotQuad.wrapped_element w') = Ok (CorotQuad.Kt w') ∧
    CorotQuad.self_id w' = CorotQuad.self_id w.
Proof.
  intros Hup Hfs Hkt.
  eexists. split.
  - apply (CorotQuad_updateState_Ok (E:=counted E)); simpl;
      [by rw Hup|done..].
  - by split_and!.
Qed.

End CountedProps.


Section TriangleProps.
Context {F : Type} {SF : Scalar F} {LA : LinAlg F}
        {M : Type} {MM : Material F M}.
Implicit Types (e : LinearTriangle.LinearTriangle F M) (h : heap F).

(** What [updateState] leaves alone: the reference geometry computed at
    construction, the nodes, and every attribute it does not assign. *)
Lemma updateState_frame e h e' h' :
  LinearTriangle.updateState e h = Ok (e', h') →
  LinearTriangle.inherited e' = LinearTriangle.inherited e ∧
  LinearTriangle.gcov e' = LinearTriangle.gcov e ∧
  LinearTriangle.GIJ e' = LinearTriangle.GIJ e ∧
  LinearTriangle.gcont e' = LinearTriangle.gcont e ∧
  LinearTriangle.area e' = LinearTriangle.area e ∧
  LinearTriangle.nodes e' = LinearTriangle.nodes e ∧
  is_Some (LinearTriangle.stress e').
Proof.
  intros Hup. unfold LinearTriangle.updateState in Hup.
  inv_bind Hup. injection Hup as <- <-. by split_and!.
Qed.

Lemma ensure_disp_again (n : Node.Node F) :
  Node.ensure_disp (Node.ensure_disp n).1
  = ((Node.ensure_disp n).1, (Node.ensure_disp n).2).
Proof.
  unfold Node.ensure_disp.
  destruct (Node.disp n) eqn:Hd; simpl; by rw ?Hd.
Qed.

Lemma deformed_pos_again (n : Node.Node F) :
  LinearTriangle.deformed_pos (Node.getDeformedPos f1 n).1
  = LinearTriangle.deformed_pos n.
Proof.
  unfold LinearTriangle.deformed_pos, Node.getDeformedPos.
  destruct (Node.ensure_disp n) as [n1 v] eqn:He. simpl.
  pose proof (ensure_disp_again n) as Ha. rw He /= in Ha. by rw Ha.
Qed.

(** Reading the deformed position of a node returns it and leaves the
    deformed position of every node as it was. *)
Lemma deformed_spec nd h x :
  LinearTriangle.deformed_pos (h nd) = Ok x →
  ∃ h', LinearTriangle.deformed nd h = Ok (x, h') ∧
        ∀ j, LinearTriangle.deformed_pos (h' j)
             = LinearTriangle.deformed_pos (h j).
Proof.
  intros Hx. unfold LinearTriangle.deformed.
  unfold LinearTriangle.deformed_pos in Hx.
  destruct (Node.getDeformedPos f1 (h nd)) as [n1 r] eqn:Hg.
  simpl in Hx. subst r. eexists. split; [done|].
  intros j. unfold upd. case_decide as Hj; [|done]. subst j.
  pose proof (deformed_pos_again (h nd)) as Ha. by rw Hg in Ha.
Qed.

Lemma shape_2_2 (m : Np.mat F) :
  LinearTriangle.shape 2 2 m → ∃ a b c d, m = [[a; b]; [c; d]].
Proof.
  intros [Hl Hr].
  destruct m as [|r1 [|r2 [|??]]]; try done.
  apply Forall_cons in Hr as [H1 Hr]. apply Forall_cons in Hr as [H2 _].
  destruct r1 as [|a [|b [|??]]]; try done.
  destruct r2 as [|c [|d [|??]]]; try done. by exists a, b, c, d.
Qed.

Lemma shape_3_3 (m : Np.mat F) :
  LinearTriangle.shape 3 3 m →
  ∃ c00 c01 c02 c10 c11 c12 c20 c21 c22 : F,
    m = [[c00; c01; c02]; [c10; c11; c12]; [c20; c21; c22]].
Proof.
  intros [Hl Hr].
  destruct m as [|r1 [|r2 [|r3 [|??]]]]; try done.
  apply Forall_cons in Hr as [H1 Hr]. apply Forall_cons in Hr as [H2 Hr].
  apply Forall_cons in Hr as [H3 _].
  destruct r1 as [|c00 [|c01 [|c02 [|??]]]]; try done.
  destruct r2 as [|c10 [|c11 [|c12 [|??]]]]; try done.
  destruct r3 as [|c20 [|c21 [|c22 [|??]]]]; try done.
  by exists c00, c01, c02, c10, c11, c12, c20, c21, c22.
Qed.

Lemma length_2 {A} (l : list A) : length l = 2 → ∃ a b, l = [a; b].
Proof. destruct l as [|a [|b [|??]]]; try done. by exists a, b. Qed.

#[local] Arguments LinearTriangle.deformed : simpl never.

(** On a plane triangle the update returns, with the closed form as the
    new state; the nodes keep their deformed positions. *)
Lemma updateState_plane e h a b c (xa xb xc : Np.vec F) :
  LinearTriangle.nodes e = [a; b; c] →
  LinearTriangle.deformed_pos (h a) = Ok xa →
  LinearTriangle.deformed_pos (h b) = Ok xb →
  LinearTriangle.deformed_pos (h c) = Ok xc →
  length xa = 2 → length xb = 2 → length xc = 2 →
  LinearTriangle.shape 2 2 (LinearTriangle.gcont e) →
  LinearTriangle.shape 2 2 (LinearTriangle.GIJ e) →
  (∀ eps, LinearTriangle.shape 3 3
            (getStiffness (setStrain eps (LinearTriangle.material e)))) →
  ∃ h', LinearTriangle.updateState e h
        = Ok (LinearTriangle.plane_update e xa xb xc, h') ∧
        ∀ j, LinearTriangle.deformed_pos (h' j)
             = LinearTriangle.deformed_pos (h j).
Proof.
  intros Hn Ha Hb Hc (xa0 & xa1 & ->)%length_2 (xb0 & xb1 & ->)%length_2
    (xc0 & xc1 & ->)%length_2 (Gs0 & Gs1 & Gt0 & Gt1 & HG)%shape_2_2
    (m00 & m01 & m10 & m11 & Hm)%shape_2_2 Hst.
  destruct (deformed_spec b h _ Hb) as (h1 & Hd1 & Hp1).
  destruct (deformed_spec a h1 [xa0; xa1]) as (h2 & Hd2 & Hp2);
    [by rw Hp1|].
  destruct (deformed_spec c h2 [xc0; xc1]) as (h3 & Hd3 & Hp3);
    [by rw Hp2 Hp1|].
  destruct (deformed_spec a h3 [xa0; xa1]) as (h4 & Hd4 & Hp4);
    [by rw Hp3 Hp2 Hp1|].
  exists h4. split; [|intros j; by rw Hp4 Hp3 Hp2 Hp1].
  unfold LinearTriangle.updateState, LinearTriangle.plane_update.
  rw Hn HG Hm. simpl. rw Hd1 /= Hd2 /= Hd3 /= Hd4 /=.
  match goal with
  | |- context [setStrain ?eps _] =>
      destruct (shape_3_3 _ (Hst eps))
        as (c00 & c01 & c02 & c10 & c11 & c12 & c20 & c21 & c22 & HC)
  end.
  vm_compute in HC. vm_compute. rw HC. vm_compute. reflexivity.
Qed.

Lemma request_loop_pos dl : ∀ (n : Node.Node F) acc,
  Node.pos (Node.request_loop dl n acc).1 = Node.pos n.
Proof.
  induction dl as [|d dl IH]; intros n acc; [done|].
  cbn [Node.request_loop]. unfold Node.request_dof.
  destruct (dict_getitem _ d) as [i|x]; [|by case_decide].
  rw IH. by case_decide.
Qed.

Lemma request_pos dl caller (n : Node.Node F) :
  Node.pos (Node.request dl caller n).1 = Node.pos n.
Proof.
  unfold Node.request. pose proof (request_loop_pos dl n []) as Hp.
  destruct (Node.request_loop dl n []) as [n1 [idx|x]]; simpl in *; [|done].
  by case_decide.
Qed.

Lemma _requestDofs_pos dl self nds : ∀ h h1,
  LinearTriangle._requestDofs dl self nds h = Ok h1 →
  ∀ j, Node.pos (h1 j) = Node.pos (h j).
Proof.
  induction nds as [|nd nds IH]; intros h h1 Hr j; simpl in Hr.
  - by injection Hr as <-.
  - pose proof (request_pos dl self (h nd)) as Hp.
    destruct (Node.request dl self (h nd)) as [n1 [idx|x]]; [|done].
    rw (IH _ _ Hr j). unfold upd. case_decide; by subst.
Qed.

(** What the constructor computes. *)
Lemma __init___geometry self attrs a b c (mtl : M) h0 e0 h1 :
  LinearTriangle.__init__ self attrs a b c mtl h0 = Ok (e0, h1) →
  LinearTriangle.nodes e0 = [a; b; c] ∧
  ∃ base1 base2 inv det,
    Np.vsub (Node.pos (h0 b)) (Node.pos (h0 a)) = Ok base1 ∧
    Np.vsub (Node.pos (h0 c)) (Node.pos (h0 a)) = Ok base2 ∧
    LinearTriangle.gcov e0 = [base1; base2] ∧
    LinearTriangle.GIJ e0
    = Np.mm (LinearTriangle.gcov e0) (Np.transpose (LinearTriangle.gcov e0)) ∧
    linalg_inv (LinearTriangle.GIJ e0) = Ok inv ∧
    LinearTriangle.gcont e0 = Np.mm inv (LinearTriangle.gcov e0) ∧
    linalg_det (LinearTriangle.GIJ e0) = Ok det ∧
    LinearTriangle.area e0 = fdiv (np_sqrt det) f2.
Proof.
  intros Hi. unfold LinearTriangle.__init__ in Hi. inv_bind Hi.
  injection Hi as <- <-. split; [done|]. simpl.
  repeat match goal with
         | Hh : LinearTriangle._requestDofs _ _ _ _ = Ok _ |- _ =>
             pose proof (_requestDofs_pos _ _ _ _ _ Hh) as Hpos; clear Hh
         end.
  unfold Node.getPos in *.
  repeat match goal with
         | Hv : Np.vsub _ _ = Ok _ |- _ => rw !Hpos in Hv; revert Hv
         end.
  intros Hv2 Hv1. unfold Np.vstack2, Np.matmul in *.
  repeat match goal with
         | Hd : (if decide ?P is left _ then _ else _) = Ok _ |- _ =>
             destruct (decide P); [injection Hd as <-|discriminate Hd]
         end.
  eexists _, _, _, _. by split_and!.
Qed.


(** C8 fails on the code.  [updateState] stores the stress in the
    attribute [stress]; [getStress] reads the attribute [Stress], which
    no method of the class assigns: after an update it returns what it
    returned before, and raises [AttributeError] unless the class
    [Element] defines an attribute of that name.  The wrapper's
    [getStress] reads the same attribute of the wrapped element. *)
Theorem getStress_misses_update e h e' h' :
  LinearTriangle.updateState e h = Ok (e', h') →
  is_Some (LinearTriangle.stress e') ∧
  LinearTriangle.getStress e' = LinearTriangle.getStress e ∧
  (LinearTriangle.inherited e !! "Stress" = None →
   LinearTriangle.getStress e' = Raise (AttributeError "Stress")) ∧
  (∀ sdl erl (w : CorotQuad.CorotQuad F (LinearTriangle.LinearTriangle F M)),
     CorotQuad.wrapped_element w = e' →
     CorotQuad.getStress (H:=LinearTriangle_Element sdl erl) w
     = LinearTriangle.getStress e).
Proof.
  intros Hup. destruct (updateState_frame _ _ _ _ Hup) as (Hin & _ & _ & _ & _ & _ & Hs).
  unfold LinearTriangle.getStress, LinearTriangle.getattr. rw Hin.
  split_and!; try done.
  - by intros ->.
  - intros sdl erl w <-. unfold CorotQuad.getStress. simpl.
    unfold LinearTriangle.getattr. by rw Hin.
Qed.

(** C5 fails on the code.  The wrapper passes itself as an extra first
    argument, and the keyword [ps], to the bound method of the wrapped
    triangle, which takes [face] and [w]: the call raises [TypeError]
    for every face and load, where the call made on the triangle itself
    stores the load. *)
Theorem setSurfaceLoad_wrapper_raises sdl erl
    (w : CorotQuad.CorotQuad F (LinearTriangle.LinearTriangle F M))
    (face pn ps : pyval F) :
  CorotQuad.setSurfaceLoad (H:=LinearTriangle_Element sdl erl) face pn ps w
  = Raise TypeError.
Proof.
  eapply CorotQuad_setSurfaceLoad_TypeError; [done|]. simpl. lia.
Qed.

Lemma setSurfaceLoad_direct e (face : nat) (pn : pyval F) :
  face < length (LinearTriangle.distributed_load e) →
  LinearTriangle.setSurfaceLoad (PInt (Z.of_nat face)) pn e
  = Ok (LinearTriangle.set_distributed_load
          (<[face := pn]> (LinearTriangle.distributed_load e)) e).
Proof.
  intros Hf. unfold LinearTriangle.setSurfaceLoad, py_call. simpl.
  unfold LinearTriangle.setSurfaceLoad_body. simpl.
  case_decide; [|lia]. by rw /= Nat2Z.id.
Qed.

End TriangleProps.

(** ** Symmetry of the tangent, in exact arithmetic *)

Section TangentProps.
Context {F : Type} {SF : Scalar F} {LA : LinAlg F}
        {M : Type} {MM : Material F M}.
Hypothesis Fring : ring_theory (R:=F) f0 f1 fadd fmul fsub fopp eq.
Add Ring F_ring : Fring.
Implicit Types (e : LinearTriangle.LinearTriangle F M) (h : heap F).

(** The block of nodes (i, j), transposed, is the block of (j, i), for
    all dual vectors and strain-displacement matrices, when [S] and [Ct]
    are symmetric. *)
Lemma stiffness_block_transpose
    (s00 s01 s11 k00 k01 k02 k11 k12 k22 ar th a0 a1 b0 b1 : F)
    (p00 p01 p10 p11 p20 p21 q00 q01 q10 q11 q20 q21 : F) :
  let S := [[s00; s01]; [s01; s11]] in
  let Ct := [[k00; k01; k02]; [k01; k11; k12]; [k02; k12; k22]] in
  let Bi := [[p00; p01]; [p10; p11]; [p20; p21]] in
  let Bj := [[q00; q01]; [q10; q11]; [q20; q21]] in
  Np.transpose
    (LinearTriangle.stiffness_block S Ct ar th [a0; a1] Bi [b0; b1] Bj)
  = LinearTriangle.stiffness_block S Ct ar th [b0; b1] Bj [a0; a1] Bi.
Proof.
  intros S Ct Bi Bj. subst S Ct Bi Bj.
  cbv [LinearTriangle.stiffness_block Np.transpose Np.ncols Np.mm Np.vm
       Np.mplus Np.vplus Np.mscale_l Np.scale_l Np.eye Np.dot Np.sum_list
       zip_with foldr foldl map seq replicate length].
  simpl.
  repeat match goal with
         | |- _ :: _ = _ :: _ => apply (f_equal2 cons)
         | |- [] = [] => reflexivity
         end; ring.
Qed.

Lemma shape_3_2 (m : Np.mat F) :
  LinearTriangle.shape 3 2 m →
  ∃ p00 p01 p10 p11 p20 p21 : F, m = [[p00; p01]; [p10; p11]; [p20; p21]].
Proof.
  intros [Hl Hr].
  destruct m as [|r1 [|r2 [|r3 [|??]]]]; try done.
  apply Forall_cons in Hr as [H1 Hr]. apply Forall_cons in Hr as [H2 Hr].
  apply Forall_cons in Hr as [H3 _].
  destruct r1 as [|p00 [|p01 [|??]]]; try done.
  destruct r2 as [|p10 [|p11 [|??]]]; try done.
  destruct r3 as [|p20 [|p21 [|??]]]; try done.
  by exists p00, p01, p10, p11, p20, p21.
Qed.

Lemma stiffness_block_symmetric (S Ct : Np.mat F) (ar th : F)
    (Gi Gj : Np.vec F) (Bi Bj : Np.mat F) :
  LinearTriangle.shape 2 2 S → Np.transpose S = S →
  LinearTriangle.shape 3 3 Ct → Np.transpose Ct = Ct →
  length Gi = 2 → length Gj = 2 →
  LinearTriangle.shape 3 2 Bi → LinearTriangle.shape 3 2 Bj →
  Np.transpose (LinearTriangle.stiffness_block S Ct ar th Gi Bi Gj Bj)
  = LinearTriangle.stiffness_block S Ct ar th Gj Bj Gi Bi.
Proof.
  intros (s00 & s01 & s10 & s11 & ->)%shape_2_2 HS
    (k00 & k01 & k02 & k10 & k11 & k12 & k20 & k21 & k22 & ->)%shape_3_3 HC
    (a0 & a1 & ->)%length_2 (b0 & b1 & ->)%length_2
    (p00 & p01 & p10 & p11 & p20 & p21 & ->)%shape_3_2
    (q00 & q01 & q10 & q11 & q20 & q21 & ->)%shape_3_2.
  injection HS as -> _. injection HC as -> -> _ -> _ _.
  apply stiffness_block_transpose.
Qed.


End TangentProps.

(** * Examples

    The definitions run on nodes with rational coordinates. *)

(** A plane node, two elements and a few calls: the second request of
    element 7 finds [uy] at index 1 and gives the new code [rz] index 2. *)
Lemma request_indices_stable_witness :
  let n0 : Node.Node Qc := Node.__init__ 0%Qc 0%Qc None in
  Node.registry_ok n0 ∧ NoDup (Node.elements n0) ∧
  ∃ n',
    Node.request ["uy"; "rz"] 7
      (Node.run [Node.Request ["ux"; "uy"] 7; Node.GetDisp None;
                 Node.Request ["ux"] 8] n0) = (n', Ok [1; 2]) ∧
    Node.ndofs n' = 3 ∧ Node.elements n' = [7; 8].
Proof.
  intros n0.
  assert (Node.registry_ok n0) as Hok by (by split_and!).
  assert (NoDup (Node.elements n0)) as Hnd by apply NoDup_nil_2.
  split; [done|]. split; [done|].
  destruct (request_indices_stable
              [Node.Request ["ux"; "uy"] 7; Node.GetDisp None;
               Node.Request ["ux"] 8] ["uy"; "rz"] 7 n0 Hok Hnd)
    as (n' & idx & Hrun & _).
  exists n'. rw Hrun. vm_compute in Hrun. by injection Hrun as <- <-.
Defined.

(** The claim C2 as the spec states it fails: [getDisp()] creates an
    array for a node without DOFs, the [request] that follows registers a
    code and leaves the array as it is. *)
Lemma disp_length_not_invariant :
  Node.disp_len
    (Node.run [Node.GetDisp None; Node.Request ["ux"] 7]
              (Node.__init__ 0%Qc 0%Qc None)) = Some 0 ∧
  size (Node.dofs
          (Node.run [Node.GetDisp None; Node.Request ["ux"] 7]
                    (Node.__init__ 0%Qc 0%Qc None))) = 1.
Proof. split; reflexivity. Qed.

(** [setDisp] stores what it is given, and [_updateDisp] on [None] with
    an empty correction makes an empty array. *)
Lemma disp_length_after_setDisp :
  Node.disp_len
    (Node.run [Node.Request ["ux"; "uy"] 7; Node.SetDisp (Node.DArray [1%Qc])]
              (Node.__init__ 0%Qc 0%Qc None)) = Some 1.
Proof. reflexivity. Qed.

Lemma disp_length_after_empty_update :
  Node.disp_len
    (Node.run [Node.Request ["ux"; "uy"] 7; Node.UpdateDisp []]
              (Node.__init__ 0%Qc 0%Qc None)) = Some 0.
Proof. reflexivity. Qed.

Lemma disp_length_settled_witness :
  Node.registry_ok (Node.__init__ 0%Qc 0%Qc None) ∧
  Node.disp_ok (Node.__init__ 0%Qc 0%Qc None) ∧
  Node.settled [Node.Request ["ux"; "uy"] 7; Node.GetDisp None;
                Node.UpdateDisp [1%Qc; 1%Qc]; Node.Request ["uy"] 8;
                Node.ResetDisp]
               (Node.__init__ 0%Qc 0%Qc None) = true ∧
  Node.disp_len
    (Node.run [Node.Request ["ux"; "uy"] 7; Node.GetDisp None;
               Node.UpdateDisp [1%Qc; 1%Qc]; Node.Request ["uy"] 8;
               Node.ResetDisp]
              (Node.__init__ 0%Qc 0%Qc None)) = Some 2 ∧
  2 = size (Node.dofs
              (Node.run [Node.Request ["ux"; "uy"] 7; Node.GetDisp None;
                         Node.UpdateDisp [1%Qc; 1%Qc]; Node.Request ["uy"] 8;
                         Node.ResetDisp]
                        (Node.__init__ 0%Qc 0%Qc None))).
Proof.
  assert (Node.registry_ok (Node.__init__ 0%Qc 0%Qc None)) as Hok
    by (by split_and!).
  assert (Node.disp_ok (Node.__init__ 0%Qc 0%Qc None)) as Hd by exact I.
  split; [done|]. split; [done|].
  split; [vm_compute; reflexivity|]. split; [reflexivity|].
  apply (disp_length_settled
           [Node.Request ["ux"; "uy"] 7; Node.GetDisp None;
            Node.UpdateDisp [1%Qc; 1%Qc]; Node.Request ["uy"] 8;
            Node.ResetDisp]
           (Node.__init__ 0%Qc 0%Qc None) 2 Hok Hd).
  - vm_compute. reflexivity.
  - reflexivity.
Defined.

(** C3 fails on the code.  A node with [ux] at index 0 and [uy] at index
    1, of which only [uy] is fixed: [areFixed] reports index 0, the
    position of [uy] in the fixity list, which is the index of the free
    DOF [ux]. *)
Lemma areFixed_reports_position :
  Node.areFixed
    (Node.run [Node.Request ["ux"; "uy"] 7; Node.FixDOF ["uy"]]
              (Node.__init__ 0%Qc 0%Qc None)) = [0] ∧
  Node.dofs
    (Node.run [Node.Request ["ux"; "uy"] 7; Node.FixDOF ["uy"]]
              (Node.__init__ 0%Qc 0%Qc None)) !! "uy" = Some 1 ∧
  Node.dofs
    (Node.run [Node.Request ["ux"; "uy"] 7; Node.FixDOF ["uy"]]
              (Node.__init__ 0%Qc 0%Qc None)) !! "ux" = Some 0 ∧
  Node.isFixed
    (Node.run [Node.Request ["ux"; "uy"] 7; Node.FixDOF ["uy"]]
              (Node.__init__ 0%Qc 0%Qc None)) "ux" = false.
Proof. split_and!; reflexivity. Qed.

(** A node with [ux], [uy] registered and loads on [uy] and on the
    unregistered [rz]: [getLoad] returns [[0, 3]], and a further load on
    [rz] changes nothing. *)
Lemma getLoad_ignores_unregistered_witness :
  Node.registry_ok
    (Node.run [Node.Request ["ux"; "uy"] 7;
               Node.SetLoad [Q2Qc 3; Q2Qc 4] ["uy"; "rz"]]
              (Node.__init__ 0%Qc 0%Qc None)) ∧
  Forall (λ d,
            Node.dofs
              (Node.run [Node.Request ["ux"; "uy"] 7;
                         Node.SetLoad [Q2Qc 3; Q2Qc 4] ["uy"; "rz"]]
                        (Node.__init__ 0%Qc 0%Qc None)) !! d = None)
         ["rz"] ∧
  Node.getLoad
    (Node.run [Node.Request ["ux"; "uy"] 7;
               Node.SetLoad [Q2Qc 3; Q2Qc 4] ["uy"; "rz"]]
              (Node.__init__ 0%Qc 0%Qc None)) = Ok [0%Qc; Q2Qc 3] ∧
  Node.getLoad
    (Node.addLoad [Q2Qc 5] ["rz"]
       (Node.run [Node.Request ["ux"; "uy"] 7;
                  Node.SetLoad [Q2Qc 3; Q2Qc 4] ["uy"; "rz"]]
                 (Node.__init__ 0%Qc 0%Qc None))) = Ok [0%Qc; Q2Qc 3].
Proof.
  set (n := Node.run _ _).
  assert (Node.registry_ok n) as Hok.
  { apply run_invariants; [by split_and!|apply NoDup_nil_2]. }
  assert (Forall (λ d, Node.dofs n !! d = None) ["rz"]) as Hun
    by (by repeat constructor).
  destruct (getLoad_ignores_unregistered n [Q2Qc 5] ["rz"] Hok Hun)
    as (Hget & _ & _ & Hadd).
  split; [done|]. split; [done|]. rw Hadd. split; reflexivity.
Defined.

(** ** The unit triangle *)

(** The constructor returns on the unit triangle, with area 1/2. *)
Lemma unit_triangle_built :
  ∃ e0 h1, unit_triangle = Ok (e0, h1) ∧
           LinearTriangle.nodes e0 = [0; 1; 2] ∧
           LinearTriangle.area e0 = Q2Qc (1 # 2) ∧
           LinearTriangle.plane e0 h1.
Proof.
  destruct unit_triangle as [[e0 h1]|x] eqn:E0;
    [|vm_compute in E0; discriminate].
  exists e0, h1. split; [done|].
  vm_compute in E0. injection E0 as <- <-.
  split; [reflexivity|]. split; [by apply Qc_is_canon|].
  split; [reflexivity|]. split.
  { repeat constructor; eexists; (split; [vm_compute; reflexivity|done]). }
  split; [split; [done|by repeat constructor]|].
  split; [split; [done|by repeat constructor]|].
  intros eps. split; [done|by repeat constructor].
Qed.

Lemma CorotQuad_updateState_delegates_witness :
  ∃ e0 h1 e h2,
    unit_triangle = Ok (e0, h1) ∧
    LinearTriangle.updateState e0 h1 = Ok (e, h2) ∧
    ∃ w',
      CorotQuad.updateState
        (H:=counted_Element
              (H:=LinearTriangle_Element no_setDistLoad no_resetLoads))
        (CorotQuad.mkCorotQuad 200 (mkCounted e0 0) [] []) h1
      = Ok (w', h2) ∧
      updates (CorotQuad.wrapped_element w') = 1 ∧
      CorotQuad.Forces w' = LinearTriangle.Forces e ∧
      CorotQuad.Kt w' = LinearTriangle.Kt e.
Proof.
  destruct unit_triangle_built as (e0 & h1 & E0 & Hn & _ & Hpl).
  destruct (LinearTriangle.updateState e0 h1) as [[e h2]|x] eqn:E1.
  - exists e0, h1, e, h2. split; [done|]. split; [done|].
    pose proof (CorotQuad_updateState_delegates
                  (H:=LinearTriangle_Element no_setDistLoad no_resetLoads)
                  (CorotQuad.mkCorotQuad 200 (mkCounted e0 0) [] [])
                  h1 e h2 (LinearTriangle.Forces e) (LinearTriangle.Kt e))
      as Hw.
    specialize (Hw E1 eq_refl eq_refl).
    destruct Hw as (w' & Hup & _ & Hcount & Hfs & Hkt & _).
    exists w'. split; [exact Hup|]. split; [exact Hcount|].
    split; [exact Hfs|exact Hkt].
  - exfalso. destruct Hpl as (_ & Hall & Hsg & Hsm & Hst).
    rw Hn in Hall.
    apply Forall_cons in Hall as [(xa & Hxa & Hla) Hall].
    apply Forall_cons in Hall as [(xb & Hxb & Hlb) Hall].
    apply Forall_cons in Hall as [(xc & Hxc & Hlc) _].
    destruct (updateState_plane e0 h1 0 1 2 xa xb xc Hn Hxa Hxb Hxc
                Hla Hlb Hlc Hsg Hsm Hst) as (h' & Hup & _).
    rw Hup in E1. discriminate E1.
Defined.



Lemma getStress_misses_update_witness :
  ∃ e0 h1 e' h',
    unit_triangle = Ok (e0, h1) ∧
    LinearTriangle.updateState e0 h1 = Ok (e', h') ∧
    is_Some (LinearTriangle.stress e') ∧
    LinearTriangle.getStress e' = Raise (AttributeError "Stress").
Proof.
  destruct unit_triangle_built as (e0 & h1 & E0 & Hn & _ & Hpl).
  assert (LinearTriangle.inherited e0 !! "Stress" = None) as Hno.
  { vm_compute in E0. by injection E0 as <- <-. }
  destruct Hpl as (_ & Hall & Hsg & Hsm & Hst). rw Hn in Hall.
  apply Forall_cons in Hall as [(xa & Hxa & Hla) Hall].
  apply Forall_cons in Hall as [(xb & Hxb & Hlb) Hall].
  apply Forall_cons in Hall as [(xc & Hxc & Hlc) _].
  destruct (updateState_plane e0 h1 0 1 2 xa xb xc Hn Hxa Hxb Hxc
              Hla Hlb Hlc Hsg Hsm Hst) as (h' & Hup & _).
  pose proof (getStress_misses_update e0 h1 _ h' Hup) as Hg.
  destruct Hg as (Hs & _ & Hraise & _).
  eexists e0, h1, _, h'. split; [exact E0|]. split; [exact Hup|].
  split; [exact Hs|exact (Hraise Hno)].
Defined.

(** On the unit triangle the direct call stores the load on face 0 and
    the call through the wrapper raises. *)
Lemma unit_triangle_setSurfaceLoad :
  ∃ e0 h1 e1,
    unit_triangle = Ok (e0, h1) ∧
    LinearTriangle.setSurfaceLoad (PInt 0) (PFloat 1%Qc) e0 = Ok e1 ∧
    LinearTriangle.distributed_load e1
    = [PFloat 1%Qc; PFloat 0%Qc; PFloat 0%Qc] ∧
    CorotQuad.setSurfaceLoad
      (H:=LinearTriangle_Element no_setDistLoad no_resetLoads)
      (PInt 0) (PFloat 1%Qc) (PInt 0) (CorotQuad.mkCorotQuad 200 e0 [] [])
    = Raise TypeError.
Proof.
  destruct unit_triangle as [[e0 h1]|x] eqn:E0;
    [|vm_compute in E0; discriminate].
  vm_compute in E0. injection E0 as <- <-.
  eexists _, _, _. split; [reflexivity|]. split; [reflexivity|].
  split; [reflexivity|].
  eapply CorotQuad_setSurfaceLoad_TypeError; [done|]. simpl. lia.
Qed.

(** Outside the plane there is nothing to compare: on nodes with three
    coordinates the constructor returns and the update raises
    [ValueError] at [P = F @ S], a 3x3 by a 2x2 matrix. *)
Lemma space_triangle_update_raises :
  ∃ e0 h1, space_triangle = Ok (e0, h1) ∧
           LinearTriangle.updateState e0 h1 = Raise ValueError.
Proof.
  destruct space_triangle as [[e0 h1]|x] eqn:E0;
    [|vm_compute in E0; discriminate].
  exists e0, h1. split; [done|].
  vm_compute in E0. injection E0 as <- <-. vm_compute. reflexivity.
Qed.
